(** * SeminarTopicSolver: the preference table loader and the solver wrapper

    A shallow embedding of [seminar_topic_solver.py].  The script reads a
    semicolon-separated table of preferences, validates it, fills in a
    default cost for the cells a student left empty ([parse_csv]), hands
    the resulting cost matrix to [scipy.optimize.linear_sum_assignment]
    and prints the matching ([solve_assignment_problem]).

    What is modelled, and how:
    - Python exceptions are values of [exn]; a computation that may raise
      is a [result].  The loops are [for_each] over [range n], threading
      the mutated lists as state, in the order the script runs them.
    - [fields] is the list of rows that [csv.reader] yields (an empty
      file yields no row, a blank line yields an empty row).
    - Python's [int], the global [penalize_below_n_preferences] and the
      scipy routine are parameters of the section; [py_int] and
      [brute_force_assignment] are executable instances used in the
      examples.
    - Python integers are [Z].  The cost matrix is a numpy array of
      float64.  float64 holds every integer up to 2^53 in absolute value
      exactly and adds such integers exactly as long as the result stays
      in that range; the cells of the matrix and their sum are modelled
      by these exact values ([Z]), and so is [k * (k + 1) / 2].  Beyond
      that range the script rounds, or raises [OverflowError], which
      the model does not follow: the theorems on the cells of the
      matrix and on the statistics assume that the costs, the sum of
      the matched costs and the threshold are in the exact range
      ([float64_exact], [exact_costs]).  The quotient of the average
      cost is not exact in general: it is the [float64] nearest to the
      rational quotient ([nearest64]), or the nan and infinities numpy
      returns for a division by zero. *)

From Stdlib Require Import ZArith QArith Lia Ascii String List Permutation.
From stdpp Require Import base list.
Import ListNotations.

Local Open Scope string_scope.
Local Open Scope list_scope.
Local Open Scope Z_scope.

(** ** Exceptions and the error monad *)

(** The [ValueError]s the loader can raise, one constructor per message. *)
Inductive value_error : Type :=
| InvalidLiteral (s : string)
    (* int(): invalid literal for int() with base 10 *)
| LessThanOne (p : Z) (student topic : string)
    (* Preference value '%d' of student %s for topic %s was less than one *)
| NotUnique (p : Z) (student topic : string)
    (* Preference value '%d' of student %s for topic %s is not unique *)
| NotSequence (student : string)
    (* Preference values for student %s are not a sequence from 1 to n *)
| MaxOfEmpty.
    (* max() arg is an empty sequence *)

Inductive exn : Type :=
| IndexError
| ValueError (v : value_error)
| SolverError.  (* whatever the matching routine raises *)

Inductive result (A : Type) : Type :=
| Ok (a : A)
| Err (e : exn).
Arguments Ok {A} a.
Arguments Err {A} e.

Definition bind {A B} (m : result A) (k : A -> result B) : result B :=
  match m with
  | Ok a => k a
  | Err e => Err e
  end.

Notation "'do' x <- m ;; k" := (bind m (fun x => k))
  (at level 10, x name, m at level 99, k at level 200).
Notation "'do' ' pat <- m ;; k" := (bind m (fun x => match x with pat => k end))
  (at level 10, pat pattern, m at level 99, k at level 200).

Definition is_ok {A} (m : result A) : bool :=
  match m with Ok _ => true | Err _ => false end.

(** The error names of the specification.  The script raises
    [IndexError] where the table is too short, the [ValueError] of
    [int] where a cell is not an integer, and its own [ValueError]s
    where a preference is invalid. *)
Inductive error_class : Type :=
| MalformedTableError
| ParseError
| InvalidPreferenceError
| OtherError.

Definition classify (e : exn) : error_class :=
  match e with
  | IndexError => MalformedTableError
  | ValueError (InvalidLiteral _) => ParseError
  | ValueError (LessThanOne _ _ _) => InvalidPreferenceError
  | ValueError (NotUnique _ _ _) => InvalidPreferenceError
  | ValueError (NotSequence _) => InvalidPreferenceError
  | ValueError MaxOfEmpty => OtherError
  | SolverError => OtherError
  end.

(** ** Python lists and loops *)

(** [l[i]] for a non-negative [i]. *)
Definition index {A} (l : list A) (i : nat) : result A :=
  match l !! i with
  | Some x => Ok x
  | None => Err IndexError
  end.

(** [for i in l: body], with the variables the body assigns as state. *)
Fixpoint for_each {I S} (l : list I) (body : I -> S -> result S) (s : S)
  : result S :=
  match l with
  | [] => Ok s
  | i :: l' => do s' <- body i s ;; for_each l' body s'
  end.

(** [[f(x) for x in l]] *)
Fixpoint mapM {A B} (f : A -> result B) (l : list A) : result (list B) :=
  match l with
  | [] => Ok []
  | x :: l' => do y <- f x ;; do ys <- mapM f l' ;; Ok (y :: ys)
  end.

Definition range (n : nat) : list nat := seq 0 n.

Definition py_sum (l : list Z) : Z := fold_left Z.add l 0.

Definition py_max (l : list Z) : result Z :=
  match l with
  | [] => Err (ValueError MaxOfEmpty)
  | x :: l' => Ok (fold_left Z.max l' x)
  end.

(** ** The loader *)

Abbreviation preference := (nat * nat * Z)%type (only parsing).

Section Loader.

(** Python's [int] on a string: [None] where it raises [ValueError]. *)
Variable int : string -> option Z.

(** The global set from the command line (any integer; 3 by default). *)
Variable penalize_below_n_preferences : Z.

Definition int_of (s : string) : result Z :=
  match int s with
  | Some p => Ok p
  | None => Err (ValueError (InvalidLiteral s))
  end.

Abbreviation read_state := (list (list nat) * list (list (nat * Z)))%type (only parsing).

(** Body of the first pair of loops: one cell of one student. *)
Definition read_cell (fields : list (list string)) (students topics : list string)
    (student topic : nat) (st : read_state) : result read_state :=
  let '(unspecified_preferences, specified_preferences) := st in
  do row <- index fields (student + 1) ;;
  do preference_string <- index row (topic + 1) ;;
  if String.eqb preference_string "" then
    do u <- index unspecified_preferences student ;;
    Ok (<[student := u ++ [topic]]> unspecified_preferences, specified_preferences)
  else
    do p <- int_of preference_string ;;
    if p <? 1 then
      do sname <- index students student ;;
      do tname <- index topics topic ;;
      Err (ValueError (LessThanOne p sname tname))
    else
      do sp <- index specified_preferences student ;;
      if existsb (Z.eqb p) (map snd sp) then
        do sname <- index students student ;;
        do tname <- index topics topic ;;
        Err (ValueError (NotUnique p sname tname))
      else
        Ok (unspecified_preferences, <[student := sp ++ [(topic, p)]]> specified_preferences).

(** Read specified and unspecified preferences, save them in separate lists. *)
Definition read_preferences (fields : list (list string)) (students topics : list string)
  : result read_state :=
  for_each (range (length students))
    (fun student st =>
       for_each (range (length topics)) (read_cell fields students topics student) st)
    (map (fun _ => []) students, map (fun _ => []) students).

(** [preference_count * (preference_count + 1) / 2], a true division. *)
Definition expected_preference_sum (preference_count : nat) : Q :=
  inject_Z (Z.of_nat preference_count * (Z.of_nat preference_count + 1)) / 2.

(** Make sure specified preferences are a 1..n sequence for each student. *)
Definition check_sequence (students : list string)
    (specified_preferences : list (list (nat * Z))) (student : nat) (_ : unit)
  : result unit :=
  do sp <- index specified_preferences student ;;
  let preference_sum := py_sum (map snd sp) in
  let preference_count := length sp in
  if Qeq_bool (expected_preference_sum preference_count) (inject_Z preference_sum) then
    Ok tt
  else
    do sname <- index students student ;;
    Err (ValueError (NotSequence sname)).

(** Assign preference values to the unspecified preferences and merge
    everything into a preference list. *)
Definition merge_student (unspecified_preferences : list (list nat)) (student : nat)
    (st : list (list (nat * Z)) * list preference)
  : result (list (list (nat * Z)) * list preference) :=
  let '(specified_preferences, preferences) := st in
  do sp <- index specified_preferences student ;;
  do preference_value_for_unspecified <-
    (if (0 <? length sp)%nat then
       do max_preference <- py_max (map snd sp) ;;
       Ok (max_preference + penalize_below_n_preferences)
     else Ok (penalize_below_n_preferences + 1)) ;;
  do u <- index unspecified_preferences student ;;
  let sp' :=
    sp ++ map (fun unspecified_topic =>
                 (unspecified_topic, preference_value_for_unspecified)) u in
  Ok (<[student := sp']> specified_preferences,
      preferences ++ map (fun '(topic, preference) => (student, topic, preference)) sp').

Definition parse_csv (fields : list (list string))
  : result (list string * list string * list preference) :=
  do header <- index fields 0 ;;
  let topics := drop 1 header in
  do students <- mapM (fun row => index row 0%nat) (drop 1 fields) ;;
  do '(unspecified_preferences, specified_preferences) <-
    read_preferences fields students topics ;;
  do _ <- for_each (range (length students))
         (check_sequence students specified_preferences) tt ;;
  do '(_, preferences) <-
    for_each (range (length students))
      (merge_student unspecified_preferences) (specified_preferences, []) ;;
  Ok (students, topics, preferences).

End Loader.

(** ** An executable [int] for ASCII decimal literals

    Surrounding white space, one optional sign, then digits with single
    underscores between them, as Python's [int] reads a string in base
    10.  Digits outside ASCII and the interpreter's limit on the number
    of digits are left out. *)

Definition is_digit (a : ascii) : bool :=
  let n := nat_of_ascii a in ((48 <=? n) && (n <=? 57))%nat.

Definition is_space (a : ascii) : bool :=
  let n := nat_of_ascii a in
  (((9 <=? n) && (n <=? 13)) || (n =? 32))%nat.

Fixpoint lstrip (s : string) : string :=
  match s with
  | String a s' => if is_space a then lstrip s' else s
  | EmptyString => EmptyString
  end.

Fixpoint rev_string (s acc : string) : string :=
  match s with
  | String a s' => rev_string s' (String a acc)
  | EmptyString => acc
  end.

Definition strip (s : string) : string :=
  rev_string (lstrip (rev_string (lstrip s) EmptyString)) EmptyString.

Fixpoint digits (s : string) (acc : Z) (after_digit : bool) : option Z :=
  match s with
  | EmptyString => if after_digit then Some acc else None
  | String a s' =>
      if is_digit a then digits s' (10 * acc + (Z.of_nat (nat_of_ascii a) - 48)) true
      else if Ascii.eqb a "_" && after_digit then digits s' acc false
      else None
  end.

Definition py_int (s : string) : option Z :=
  match strip s with
  | String "-" s' => option_map Z.opp (digits s' 0 false)
  | String "+" s' => digits s' 0 false
  | s' => digits s' 0 false
  end.

(** ** The solver wrapper *)

(** A float64: a finite value, given by the rational it stands for,
    nan, or an infinity. *)
Inductive float64 : Type :=
| Finite (q : Q)
| NaN
| Infinity (negative : bool).

Definition negate (a : float64) : float64 :=
  match a with
  | Finite q => Finite (- q)
  | NaN => NaN
  | Infinity negative => Infinity (negb negative)
  end.

(** The integer nearest to [a / b], the even one of two that are
    equally near; [0 <= a] and [0 < b]. *)
Definition round_half_even (a b : Z) : Z :=
  let f := a / b in
  match 2 * (a mod b) ?= b with
  | Lt => f
  | Gt => f + 1
  | Eq => if Z.even f then f else f + 1
  end.

(** The float64 nearest to [n / d] for positive [n] and [d], as IEEE
    754 rounds the result of a division: with [2^e <= n / d < 2^(e+1)]
    the result is a multiple of [2^u], [u = e - 52], or of [2^-1074]
    for the subnormal numbers; a result of [2^1024] or more is the
    infinity. *)
Definition nearest_positive (n d : Z) : float64 :=
  let e0 := Z.log2 n - Z.log2 d in
  let below := if 0 <=? e0 then n <? d * 2 ^ e0 else n * 2 ^ (- e0) <? d in
  let e := if below then e0 - 1 else e0 in
  let u := Z.max (e - 52) (-1074) in
  if 0 <=? u then
    let x := round_half_even n (d * 2 ^ u) * 2 ^ u in
    if 2 ^ 1024 <=? x then Infinity false else Finite (inject_Z x)
  else
    Finite (Qred (round_half_even (n * 2 ^ (- u)) d # Z.to_pos (2 ^ (- u)))).

Definition nearest64 (q : Q) : float64 :=
  match Qnum q with
  | 0 => Finite 0
  | Z.pos n => nearest_positive (Z.pos n) (Z.pos (Qden q))
  | Z.neg n => negate (nearest_positive (Z.pos n) (Z.pos (Qden q)))
  end.

(** [total_cost / len(students)]: the float64 nearest to the quotient;
    nan or an infinity when there is no student.  [total_cost] is the
    exact value of the float64 sum, and the number of students is far
    below 2^53, where its conversion to float64 is exact. *)
Definition np_divide (total_cost : Z) (n : nat) : float64 :=
  match n with
  | O => if total_cost =? 0 then NaN else Infinity (total_cost <? 0)
  | S _ => nearest64 (total_cost # Pos.of_nat n)
  end.

(** [average_cost > penalize_below_n_preferences]; false on nan.  The
    threshold is compared by its exact value, which is its float64
    value up to 2^53 in absolute value. *)
Definition np_greater (a : float64) (b : Z) : bool :=
  match a with
  | Finite q => negb (Qle_bool q (inject_Z b))
  | NaN => false
  | Infinity negative => negb negative
  end.

(** What the script prints, one constructor per [print]. *)
Inductive line : Type :=
| TotalCost (total_cost : Z)
| AverageCost (average_cost : float64)
| Warning (average_cost : float64) (penalize_value : Z)
| SolutionHeader
| Gets (student topic : string).

(** A run prints lines and then returns or raises. *)
Definition io (A : Type) : Type := list line * result A.

Definition io_bind {A B} (m : io A) (k : A -> io B) : io B :=
  match m with
  | (out, Ok a) => let '(out', r) := k a in (out ++ out', r)
  | (out, Err e) => (out, Err e)
  end.

Definition print (l : line) : io unit := ([l], Ok tt).
Definition lift {A} (r : result A) : io A := ([], r).

Notation "'io_do' x <- m ;; k" := (io_bind m (fun x => k))
  (at level 10, x name, m at level 99, k at level 200).
Notation "'io_do' ' pat <- m ;; k" := (io_bind m (fun x => match x with pat => k end))
  (at level 10, pat pattern, m at level 99, k at level 200).

Fixpoint io_for_each {I} (l : list I) (body : I -> io unit) : io unit :=
  match l with
  | [] => ([], Ok tt)
  | i :: l' => io_do _ <- body i ;; io_for_each l' body
  end.

Abbreviation matrix := (list (list Z)) (only parsing).

Definition np_zeros (n m : nat) : matrix := replicate n (replicate m 0).

(** [cost_matrix[student, topic] = cost].  The cell holds the cost
    itself, which is what float64 holds for a cost up to 2^53 in
    absolute value ([float64_exact]). *)
Definition set_cell (preference_item : preference) (cost_matrix : matrix)
  : result matrix :=
  let '(student, topic, cost) := preference_item in
  do row <- index cost_matrix student ;;
  do _ <- index row topic ;;
  Ok (<[student := <[topic := cost]> row]> cost_matrix).

Definition get_cell (cost_matrix : matrix) (rc : nat * nat) : result Z :=
  do row <- index cost_matrix rc.1 ;;
  index row rc.2.

(** [cost_matrix[row_indices, col_indices]]: the two index arrays are
    paired position by position; an array of length one is broadcast
    against the other; any other difference of lengths raises. *)
Definition fancy_index (cost_matrix : matrix) (row_indices col_indices : list nat)
  : result (list Z) :=
  if (length row_indices =? length col_indices)%nat then
    mapM (get_cell cost_matrix) (zip row_indices col_indices)
  else
    match row_indices, col_indices with
    | [r], _ => mapM (fun c => get_cell cost_matrix (r, c)) col_indices
    | _, [c] => mapM (fun r => get_cell cost_matrix (r, c)) row_indices
    | _, _ => Err IndexError
    end.

Section Solver.

(** [scipy.optimize.linear_sum_assignment]: the two index arrays of a
    matching, or an exception. *)
Variable linear_sum_assignment : matrix -> result (list nat * list nat).

Variable penalize_below_n_preferences : Z.

Definition build_cost_matrix (students topics : list string)
    (preferences : list preference) : result matrix :=
  for_each preferences set_cell (np_zeros (length students) (length topics)).

(** [total_cost] is the exact sum of the matched cells: it is the
    float64 sum that numpy computes, in whatever order, when the
    matched costs add up exactly ([exact_costs]). *)
Definition solve_assignment_problem (students topics : list string)
    (preferences : list preference) : io unit :=
  io_do cost_matrix <- lift (build_cost_matrix students topics preferences) ;;
  io_do solution <- lift (linear_sum_assignment cost_matrix) ;;
  let '(row_indices, col_indices) := solution in
  io_do cells <- lift (fancy_index cost_matrix row_indices col_indices) ;;
  let total_cost := py_sum cells in
  io_do _ <- print (TotalCost total_cost) ;;
  let average_cost := np_divide total_cost (length students) in
  io_do _ <- print (AverageCost average_cost) ;;
  io_do _ <- (if np_greater average_cost penalize_below_n_preferences
              then print (Warning average_cost penalize_below_n_preferences)
              else ([], Ok tt)) ;;
  io_do _ <- print SolutionHeader ;;
  io_for_each (range (length row_indices))
    (fun i =>
       io_do student_index <- lift (index row_indices i) ;;
       io_do topic_index <- lift (index col_indices i) ;;
       io_do sname <- lift (index students student_index) ;;
       io_do tname <- lift (index topics topic_index) ;;
       print (Gets sname tname)).

Variable int : string -> option Z.

(** The script: load the table, then solve. *)
Definition main (fields : list (list string)) : io unit :=
  io_do '(students, topics, preferences) <-
    lift (parse_csv int penalize_below_n_preferences fields) ;;
  solve_assignment_problem students topics preferences.

End Solver.

(** ** An executable matching routine

    Minimum-cost matching of a rectangular matrix by exhaustive search:
    every row gets its own column when there are at least as many
    columns as rows; otherwise every column gets its own row, and the
    pairs are returned in the order of the rows, as scipy documents it.
    Among matchings of equal cost the first one enumerated is taken,
    which need not be scipy's choice. *)

Fixpoint injections (k : nat) (cols : list nat) : list (list nat) :=
  match k with
  | O => [[]]
  | S k' =>
      flat_map (fun c => map (cons c)
                  (injections k' (filter (fun c' => negb (c' =? c)%nat) cols))) cols
  end.

Definition cell_or_zero (cost_matrix : matrix) (r c : nat) : Z :=
  nth c (nth r cost_matrix []) 0.

Definition matching_cost (cost_matrix : matrix) (pairs : list (nat * nat)) : Z :=
  py_sum (map (fun rc => cell_or_zero cost_matrix rc.1 rc.2) pairs).

Fixpoint cheapest {A} (cost : A -> Z) (best : A) (l : list A) : A :=
  match l with
  | [] => best
  | x :: l' => cheapest cost (if cost x <? cost best then x else best) l'
  end.

Fixpoint insert_by_row (p : nat * nat) (l : list (nat * nat)) : list (nat * nat) :=
  match l with
  | [] => [p]
  | q :: l' => if (p.1 <=? q.1)%nat then p :: l else q :: insert_by_row p l'
  end.

Definition brute_force_assignment (cost_matrix : matrix)
  : result (list nat * list nat) :=
  let n := length cost_matrix in
  let m := length (nth 0 cost_matrix []) in
  let candidates :=
    if (n <=? m)%nat
    then map (fun cols => zip (range n) cols) (injections n (range m))
    else map (fun rows => foldr insert_by_row [] (zip rows (range m)))
             (injections m (range n)) in
  match candidates with
  | [] => Ok ([], [])
  | first :: others =>
      let best := cheapest (matching_cost cost_matrix) first others in
      Ok (map fst best, map snd best)
  end.

(** ** The loader, one row at a time

    The loops of [parse_csv] touch, for each student, only that
    student's entries of the two lists.  The functions below run the
    same steps on one row; [parse_csv_rows] puts them together, and is
    proved equal to [parse_csv]. *)

Abbreviation row_state := (list nat * list (nat * Z))%type (only parsing).

Section Rows.

Variable int : string -> option Z.
Variable penalize_below_n_preferences : Z.

(** What [read_cell] does with the cell's string. *)
Definition cell_step (sname : string) (topics : list string)
    (preference_string : string) (topic : nat) (st : row_state) : result row_state :=
  let '(u, sp) := st in
  if String.eqb preference_string "" then Ok (u ++ [topic], sp)
  else
    do p <- int_of int preference_string ;;
    if p <? 1 then
      do tname <- index topics topic ;;
      Err (ValueError (LessThanOne p sname tname))
    else if existsb (Z.eqb p) (map snd sp) then
      do tname <- index topics topic ;;
      Err (ValueError (NotUnique p sname tname))
    else Ok (u, sp ++ [(topic, p)]).

Definition row_cell (sname : string) (topics row : list string)
    (topic : nat) (st : row_state) : result row_state :=
  do preference_string <- index row (topic + 1) ;;
  cell_step sname topics preference_string topic st.

Definition read_row (topics : list string) (named_row : string * list string)
  : result row_state :=
  for_each (range (length topics)) (row_cell named_row.1 topics named_row.2) ([], []).

(** The same steps over the list of a row's cells, first topic [topic]. *)
Fixpoint scan_cells (sname : string) (topics cells : list string) (topic : nat)
    (st : row_state) : result row_state :=
  match cells with
  | [] => Ok st
  | c :: cells' =>
      do st' <- cell_step sname topics c topic st ;;
      scan_cells sname topics cells' (S topic) st'
  end.

Definition check_row (named_state : string * row_state) : result unit :=
  let sp := named_state.2.2 in
  if Qeq_bool (expected_preference_sum (length sp)) (inject_Z (py_sum (map snd sp)))
  then Ok tt
  else Err (ValueError (NotSequence named_state.1)).

(** The cost of the topics a student left empty. *)
Definition default_cost (values : list Z) : Z :=
  match values with
  | [] => penalize_below_n_preferences + 1
  | x :: l => fold_left Z.max l x + penalize_below_n_preferences
  end.

Definition merge_row (student : nat) (st : row_state) : list preference :=
  let '(u, sp) := st in
  map (fun '(topic, preference) => (student, topic, preference))
    (sp ++ map (fun unspecified_topic =>
                  (unspecified_topic, default_cost (map snd sp))) u).

Fixpoint merge_rows (student : nat) (rs : list row_state) : list preference :=
  match rs with
  | [] => []
  | r :: rs' => merge_row student r ++ merge_rows (S student) rs'
  end.

Definition parse_csv_rows (fields : list (list string))
  : result (list string * list string * list preference) :=
  do header <- index fields 0 ;;
  let topics := drop 1 header in
  do students <- mapM (fun row => index row 0%nat) (drop 1 fields) ;;
  do rs <- mapM (read_row topics) (zip students (drop 1 fields)) ;;
  do _ <- mapM check_row (zip students rs) ;;
  Ok (students, topics, merge_rows 0 rs).

(** ** What a row says, read off the table *)

(** The cells of a data row under the topic columns. *)
Definition preference_cells (topics row : list string) : list string :=
  take (length topics) (drop 1 row).

(** The topics a row leaves empty, numbered from [topic]. *)
Fixpoint unspecified_at (topic : nat) (cells : list string) : list nat :=
  match cells with
  | [] => []
  | c :: cells' =>
      if String.eqb c "" then topic :: unspecified_at (S topic) cells'
      else unspecified_at (S topic) cells'
  end.

(** The topics a row ranks, with the rank: the non-empty cells that
    are integers. *)
Fixpoint specified_at (topic : nat) (cells : list string) : list (nat * Z) :=
  match cells with
  | [] => []
  | c :: cells' =>
      if String.eqb c "" then specified_at (S topic) cells'
      else match int c with
           | Some p => (topic, p) :: specified_at (S topic) cells'
           | None => specified_at (S topic) cells'
           end
  end.

Definition specified_values (cells : list string) : list Z :=
  map snd (specified_at 0 cells).

(** Every non-empty cell is an integer. *)
Definition all_integers (cells : list string) : Prop :=
  Forall (fun c => c = "" \/ is_Some (int c)) cells.

(** [1; 2; ...; k] *)
Definition one_to (k : nat) : list Z := map Z.of_nat (seq 1 k).

(** What the reading loops leave for a row: the topics left empty,
    and the ranked topics with their ranks. *)
Definition row_result (cells : list string) : row_state :=
  (unspecified_at 0 cells, specified_at 0 cells).

(** Cells the reading loops get through: every non-empty cell is an
    integer, at least 1, and no value comes twice. *)
Definition cells_readable (cells : list string) : Prop :=
  all_integers cells /\
  Forall (fun p => 1 <= p) (specified_values cells) /\
  List.NoDup (specified_values cells).

Definition row_readable (topics row : list string) : Prop :=
  (length topics + 1 <= length row)%nat /\
  cells_readable (preference_cells topics row).

(** The reading loops get to the cell of [student] for [topic]: no row
    is empty, the rows before are readable, and so are the cells of
    the student's row before [topic]. *)
Definition reaches (topics : list string) (rows : list (list string))
    (student topic : nat) : Prop :=
  Forall (fun row => row <> []) rows /\
  Forall (row_readable topics) (take student rows) /\
  (topic < length topics)%nat /\
  exists row, rows !! student = Some row /\
              (topic + 1 <= length row)%nat /\
              cells_readable (take topic (drop 1 row)).

(** The preference list of a table whose rows are all accepted. *)
Definition expected_preferences (topics : list string) (rows : list (list string))
  : list preference :=
  merge_rows 0 (map (fun row => row_result (preference_cells topics row)) rows).

(** The sum test of the loader, on the specified values of a row. *)
Definition sum_test (topics row : list string) : Prop :=
  let values := specified_values (preference_cells topics row) in
  py_sum values = Z.of_nat (length values) * (Z.of_nat (length values) + 1) / 2.

(** A row the loader accepts: long enough for the header, and its
    specified values are those of a ranking. *)
Definition row_accepted (topics row : list string) : Prop :=
  (length topics + 1 <= length row)%nat /\
  all_integers (preference_cells topics row) /\
  Permutation (specified_values (preference_cells topics row))
              (one_to (length (specified_values (preference_cells topics row)))).

End Rows.

(** ** What a run prints, read off a matching *)

(** A matrix of [n] rows and [m] columns. *)
Definition has_shape (n m : nat) (cost_matrix : list (list Z)) : Prop :=
  length cost_matrix = n /\ Forall (fun row => length row = m) cost_matrix.

(** The assignment lines of a matching. *)
Definition assignment_lines (students topics : list string) (pairs : list (nat * nat))
  : result (list line) :=
  mapM (fun rc =>
          do sname <- index students rc.1 ;;
          do tname <- index topics rc.2 ;;
          Ok (Gets sname tname)) pairs.

Definition is_gets (l : line) : bool :=
  match l with Gets _ _ => true | _ => false end.

Definition is_warning (l : line) : bool :=
  match l with Warning _ _ => true | _ => false end.

(** ** Where float64 is exact *)

(** An integer that float64 holds exactly, and that is reached exactly
    by sums of integers that stay below it in absolute value. *)
Definition float64_exact (z : Z) : Prop := Z.abs z <= 2 ^ 53.

(** Costs that float64 holds exactly, and of which any [count] add up
    exactly, in any order. *)
Definition exact_costs (count : nat) (preferences : list preference) : Prop :=
  Forall (fun p => float64_exact p.2 /\ float64_exact (p.2 * Z.of_nat count))
         preferences.

(** A float64 is greater than an integer. *)
Definition exceeds (a : float64) (threshold : Z) : Prop :=
  match a with
  | Finite q => (inject_Z threshold < q)%Q
  | NaN => False
  | Infinity negative => negative = false
  end.

Section Report.

Variable penalize_below_n_preferences : Z.

(** The statistics lines, up to the head of the solution. *)
Definition statistics (students : list string) (cells : list Z) : list line :=
  let total_cost := py_sum cells in
  let average_cost := np_divide total_cost (length students) in
  [TotalCost total_cost; AverageCost average_cost] ++
  (if np_greater average_cost penalize_below_n_preferences
   then [Warning average_cost penalize_below_n_preferences] else []) ++
  [SolutionHeader].

End Report.

(** ** The cell a list of triples leaves in the matrix *)

(** The cost of the last triple for [student] and [topic]; 0, the
    value [np.zeros] puts there, when there is none. *)
Definition last_cost (preferences : list preference) (student topic : nat) : Z :=
  fold_left
    (fun cost '(s, t, c) =>
       if ((s =? student) && (t =? topic))%nat then c else cost)
    preferences 0.

(** ** Example tables *)

(** Three students, three topics; threshold 3. *)
Definition example_fields : list (list string) :=
  [["X"; "A"; "B"; "C"];
   ["s1"; "1"; "2"; "3"];
   ["s2"; ""; "1"; ""];
   ["s3"; "2"; ""; "1"]].

Definition example_students : list string := ["s1"; "s2"; "s3"].
Definition example_topics : list string := ["A"; "B"; "C"].

Definition example_preferences : list preference :=
  [(0%nat, 0%nat, 1); (0%nat, 1%nat, 2); (0%nat, 2%nat, 3);
   (1%nat, 1%nat, 1); (1%nat, 0%nat, 4); (1%nat, 2%nat, 4);
   (2%nat, 0%nat, 2); (2%nat, 2%nat, 1); (2%nat, 1%nat, 5)].

(** Two students, one topic. *)
Definition two_students_one_topic : list (list string) :=
  [["X"; "A"]; ["s1"; "1"]; ["s2"; ""]].

(** * Proofs *)

(** ** Loops and comprehensions *)

Lemma bind_Ok_inv {A B} (m : result A) (k : A -> result B) (b : B) :
  bind m k = Ok b -> exists a, m = Ok a /\ k a = Ok b.
Proof. destruct m as [a|e]; simpl; [eauto | discriminate]. Qed.

Lemma bind_Err_inv {A B} (m : result A) (k : A -> result B) (e : exn) :
  bind m k = Err e -> m = Err e \/ exists a, m = Ok a /\ k a = Err e.
Proof. destruct m as [a|e']; simpl; [eauto | intros [= ->]; auto]. Qed.

Lemma index_Ok {A} (l : list A) (i : nat) (x : A) :
  index l i = Ok x <-> l !! i = Some x.
Proof. unfold index. destruct (l !! i); split; congruence. Qed.

Lemma index_lookup {A} (l : list A) (i : nat) (x : A) :
  l !! i = Some x -> index l i = Ok x.
Proof. apply index_Ok. Qed.

Lemma for_each_app {I S} (l1 l2 : list I) (body : I -> S -> result S) (s : S) :
  for_each (l1 ++ l2) body s = (do s' <- for_each l1 body s ;; for_each l2 body s').
Proof.
  revert s. induction l1 as [|i l1 IH]; intros s; simpl; [reflexivity|].
  destruct (body i s); simpl; auto.
Qed.

Lemma mapM_app {A B} (f : A -> result B) (l1 l2 : list A) :
  mapM f (l1 ++ l2) =
  (do ys1 <- mapM f l1 ;; do ys2 <- mapM f l2 ;; Ok (ys1 ++ ys2)).
Proof.
  induction l1 as [|x l1 IH]; simpl.
  - destruct (mapM f l2); reflexivity.
  - destruct (f x); simpl; [|reflexivity]. rewrite IH.
    destruct (mapM f l1); simpl; [|reflexivity].
    destruct (mapM f l2); reflexivity.
Qed.

Lemma mapM_Ok {A B} (f : A -> result B) (l : list A) (ys : list B) :
  mapM f l = Ok ys <-> Forall2 (fun x y => f x = Ok y) l ys.
Proof.
  revert ys. induction l as [|x l IH]; intros ys; simpl.
  - split; [intros [= <-]; constructor | intros H; inversion H; reflexivity].
  - split.
    + intros H. apply bind_Ok_inv in H as (y & Hy & H).
      apply bind_Ok_inv in H as (ys' & Hys & [= <-]).
      constructor; [assumption | apply IH; assumption].
    + intros H. inversion H as [|? y ? ys' Hy Hys]; subst.
      rewrite Hy. simpl. apply IH in Hys. rewrite Hys. reflexivity.
Qed.

Lemma mapM_length {A B} (f : A -> result B) (l : list A) (ys : list B) :
  mapM f l = Ok ys -> length ys = length l.
Proof. intros H. apply mapM_Ok in H. symmetry. eapply Forall2_length; eauto. Qed.

Lemma mapM_Err {A B} (f : A -> result B) (l : list A) (e : exn) :
  mapM f l = Err e <->
  exists i x, l !! i = Some x /\ f x = Err e /\
              forall j z, (j < i)%nat -> l !! j = Some z -> is_ok (f z) = true.
Proof.
  induction l as [|x l IH]; simpl.
  - split; [discriminate | intros (i & y & H & _); discriminate].
  - split.
    + intros H. apply bind_Err_inv in H as [H | (y & Hy & H)].
      * exists 0%nat, x. split; [reflexivity|]. split; [assumption|]. intros; lia.
      * apply bind_Err_inv in H as [H | (ys & _ & H)]; [|discriminate].
        apply IH in H as (i & z & Hz & He & Hlt).
        exists (S i), z. split; [assumption|]. split; [assumption|].
        intros [|j] w Hj Hw; simpl in Hw.
        -- injection Hw as <-. rewrite Hy. reflexivity.
        -- apply (Hlt j); [lia | assumption].
    + intros ([|i] & z & Hz & He & Hlt); simpl in Hz.
      * injection Hz as <-. rewrite He. reflexivity.
      * specialize (Hlt 0%nat x (Nat.lt_0_succ _) eq_refl) as Hx.
        destruct (f x) as [y|]; [simpl | discriminate].
        assert (mapM f l = Err e) as ->; [|reflexivity].
        apply IH. exists i, z. split; [assumption|]. split; [assumption|].
        intros j w Hj Hw. apply (Hlt (S j)); [lia | assumption].
Qed.

Lemma is_ok_true {A} (m : result A) : is_ok m = true <-> exists a, m = Ok a.
Proof.
  destruct m; simpl; split; eauto; try discriminate.
  intros [? ?]; discriminate.
Qed.

(** ** The loops of the loader, row by row *)

Section Refinement.

Variable int : string -> option Z.
Variable penalize_below_n_preferences : Z.

Lemma read_cell_row_cell fields students topics student topic row sname
    (U : list (list nat)) (S : list (list (nat * Z))) u sp :
  fields !! (student + 1)%nat = Some row ->
  students !! student = Some sname ->
  U !! student = Some u ->
  S !! student = Some sp ->
  read_cell int fields students topics student topic (U, S) =
  (do st <- row_cell int sname topics row topic (u, sp) ;;
   Ok (<[student := st.1]> U, <[student := st.2]> S)).
Proof.
  intros Hrow Hname HU HS. unfold read_cell, row_cell, cell_step.
  rewrite (index_lookup _ _ _ Hrow). simpl.
  destruct (index row (topic + 1)) as [c|]; simpl; [|reflexivity].
  destruct (String.eqb c "").
  - rewrite (index_lookup _ _ _ HU). simpl.
    rewrite (list_insert_id S student sp) by assumption. reflexivity.
  - destruct (int_of int c) as [p|]; simpl; [|reflexivity].
    rewrite (index_lookup _ _ _ Hname), (index_lookup _ _ _ HS). simpl.
    destruct (p <? 1); [destruct (index topics topic); reflexivity|].
    destruct (existsb (Z.eqb p) (map snd sp)).
    + destruct (index topics topic); reflexivity.
    + simpl. rewrite (list_insert_id U student u) by assumption. reflexivity.
Qed.

Lemma read_cells_row fields students topics student row sname (l : list nat) :
  fields !! (student + 1)%nat = Some row ->
  students !! student = Some sname ->
  forall (U : list (list nat)) (S : list (list (nat * Z))) u sp,
  U !! student = Some u ->
  S !! student = Some sp ->
  for_each l (read_cell int fields students topics student) (U, S) =
  (do st <- for_each l (row_cell int sname topics row) (u, sp) ;;
   Ok (<[student := st.1]> U, <[student := st.2]> S)).
Proof.
  intros Hrow Hname. induction l as [|topic l IH]; intros U S u sp HU HS;
    cbn [for_each bind].
  - rewrite !list_insert_id by assumption. reflexivity.
  - rewrite (read_cell_row_cell _ _ _ _ _ _ _ _ _ _ _ Hrow Hname HU HS).
    destruct (row_cell int sname topics row topic (u, sp)) as [[u1 sp1]|]; simpl;
      [|reflexivity].
    rewrite (IH _ _ u1 sp1).
    + destruct (for_each l (row_cell int sname topics row) (u1, sp1))
        as [[u2 sp2]|]; simpl; [|reflexivity].
      rewrite !list_insert_insert_eq. reflexivity.
    + apply list_lookup_insert_eq. eapply lookup_lt_Some; eauto.
    + apply list_lookup_insert_eq. eapply lookup_lt_Some; eauto.
Qed.

Lemma read_rows_prefix fields students topics (k : nat) :
  length (drop 1 fields) = length students ->
  (k <= length students)%nat ->
  for_each (seq 0 k)
    (fun student st =>
       for_each (range (length topics))
         (read_cell int fields students topics student) st)
    (replicate (length students) [], replicate (length students) []) =
  (do rs <- mapM (read_row int topics) (take k (zip students (drop 1 fields))) ;;
   Ok (map fst rs ++ replicate (length students - k) [],
       map snd rs ++ replicate (length students - k) [])).
Proof.
  intros Hlen. induction k as [|k IH]; intros Hk.
  - simpl. rewrite Nat.sub_0_r. reflexivity.
  - rewrite seq_S, for_each_app, IH by lia. clear IH. simpl.
    destruct (lookup_lt_is_Some_2 students k) as [sname Hname]; [lia|].
    destruct (lookup_lt_is_Some_2 (drop 1 fields) k) as [row Hrow]; [lia|].
    assert (zip students (drop 1 fields) !! k = Some (sname, row)) as Hzip.
    { apply lookup_zip_with_Some. eauto. }
    rewrite (take_S_r _ _ _ Hzip), mapM_app.
    destruct (mapM (read_row int topics) (take k (zip students (drop 1 fields))))
      as [rs|] eqn:Hrs; simpl; [|reflexivity].
    assert (length rs = k) as Hlrs.
    { apply mapM_length in Hrs. rewrite Hrs, length_take, length_zip. lia. }
    rewrite lookup_drop in Hrow.
    replace (1 + k)%nat with (k + 1)%nat in Hrow by lia.
    rewrite (read_cells_row _ _ _ _ _ _ _ Hrow Hname _ _ [] []).
    + change (for_each (range (length topics)) (row_cell int sname topics row) ([], []))
        with (read_row int topics (sname, row)).
      destruct (read_row int topics (sname, row)) as [[u sp]|]; simpl; [|reflexivity].
      rewrite !insert_app_r_alt by (rewrite length_map; lia).
      rewrite !length_map, Hlrs, Nat.sub_diag.
      replace (length students - k)%nat with (S (length students - S k)) by lia.
      simpl. rewrite !map_app, <- !app_assoc. reflexivity.
    + rewrite lookup_app_r by (rewrite length_map; lia).
      rewrite length_map, Hlrs, Nat.sub_diag.
      apply lookup_replicate_2. lia.
    + rewrite lookup_app_r by (rewrite length_map; lia).
      rewrite length_map, Hlrs, Nat.sub_diag.
      apply lookup_replicate_2. lia.
Qed.

Lemma map_const_replicate {A B} (b : B) (l : list A) :
  map (fun _ => b) l = replicate (length l) b.
Proof. induction l; simpl; congruence. Qed.

Lemma read_preferences_rows fields students topics :
  length (drop 1 fields) = length students ->
  read_preferences int fields students topics =
  (do rs <- mapM (read_row int topics) (zip students (drop 1 fields)) ;;
   Ok (map fst rs, map snd rs)).
Proof.
  intros Hlen. unfold read_preferences, range.
  rewrite !map_const_replicate, read_rows_prefix by lia.
  rewrite take_ge by (rewrite length_zip; lia).
  rewrite Nat.sub_diag. simpl.
  destruct (mapM _ _); simpl; [|reflexivity]. rewrite !app_nil_r. reflexivity.
Qed.

Lemma for_each_unit_mapM {A} (g : nat -> unit -> result unit) (g' : A -> result unit)
    (l : list A) (j : nat) :
  (forall i x, l !! i = Some x -> g (j + i)%nat tt = g' x) ->
  for_each (seq j (length l)) g tt = (do _ <- mapM g' l ;; Ok tt).
Proof.
  revert j. induction l as [|x l IH]; intros j H; simpl; [reflexivity|].
  rewrite <- (H 0%nat x eq_refl), Nat.add_0_r.
  destruct (g j tt) as [[]|]; simpl; [|reflexivity].
  rewrite (IH (S j)).
  - destruct (mapM g' l); reflexivity.
  - intros i y Hy. rewrite <- (H (S i) y Hy). f_equal. lia.
Qed.

Lemma check_sequence_rows students (rs : list row_state) :
  length rs = length students ->
  for_each (range (length students)) (check_sequence students (map snd rs)) tt =
  (do _ <- mapM check_row (zip students rs) ;; Ok tt).
Proof.
  intros Hlen. unfold range.
  replace (length students) with (length (zip students rs))
    by (rewrite length_zip; lia).
  apply for_each_unit_mapM. intros i [sname r] Hi.
  apply lookup_zip_with_Some in Hi as (sname' & r' & [= <- <-] & Hname & Hr).
  unfold check_sequence, check_row. simpl.
  rewrite (index_lookup (map snd rs) i r.2)
    by (rewrite list_lookup_fmap, Hr; reflexivity).
  simpl. destruct (Qeq_bool _ _); [reflexivity|].
  rewrite (index_lookup _ _ _ Hname). reflexivity.
Qed.

Lemma merge_rows_app (student : nat) (rs rs' : list row_state) :
  merge_rows penalize_below_n_preferences student (rs ++ rs') =
  merge_rows penalize_below_n_preferences student rs ++
  merge_rows penalize_below_n_preferences (student + length rs) rs'.
Proof.
  revert student. induction rs as [|r rs IH]; intros student; simpl.
  - rewrite Nat.add_0_r. reflexivity.
  - rewrite IH, <- app_assoc. do 3 f_equal. lia.
Qed.

Lemma merge_student_row (U : list (list nat)) (S : list (list (nat * Z)))
    (preferences : list (nat * nat * Z)) student u sp :
  U !! student = Some u ->
  S !! student = Some sp ->
  merge_student penalize_below_n_preferences U student (S, preferences) =
  Ok (<[student := sp ++ map (fun t => (t, default_cost penalize_below_n_preferences
                                             (map snd sp))) u]> S,
      preferences ++ merge_row penalize_below_n_preferences student (u, sp)).
Proof.
  intros HU HS. unfold merge_student, merge_row.
  rewrite (index_lookup _ _ _ HS). simpl.
  assert ((if (0 <? length sp)%nat
           then do max_preference <- py_max (map snd sp) ;;
                Ok (max_preference + penalize_below_n_preferences)
           else Ok (penalize_below_n_preferences + 1)) =
          Ok (default_cost penalize_below_n_preferences (map snd sp))) as ->.
  { destruct sp; reflexivity. }
  simpl. rewrite (index_lookup _ _ _ HU). reflexivity.
Qed.

Lemma merge_prefix (U : list (list nat)) (S : list (list (nat * Z))) (k : nat) :
  length U = length S ->
  (k <= length S)%nat ->
  exists S' : list (list (nat * Z)),
    for_each (seq 0 k) (merge_student penalize_below_n_preferences U) (S, []) =
    Ok (S', merge_rows penalize_below_n_preferences 0 (take k (zip U S))) /\
    length S' = length S /\
    forall j, (k <= j)%nat -> S' !! j = S !! j.
Proof.
  intros Hlen. induction k as [|k IH]; intros Hk.
  - exists S. simpl. auto.
  - destruct IH as (S' & Hrun & HlS' & Hrest); [lia|].
    destruct (lookup_lt_is_Some_2 U k) as [u Hu]; [lia|].
    destruct (lookup_lt_is_Some_2 S k) as [sp Hsp]; [lia|].
    assert (zip U S !! k = Some (u, sp)) as Hzip.
    { apply lookup_zip_with_Some. eauto. }
    eexists. rewrite seq_S, for_each_app, Hrun. cbn [for_each bind Nat.add].
    rewrite (merge_student_row _ _ _ _ u sp), (take_S_r _ _ _ Hzip), merge_rows_app;
      [|assumption|rewrite Hrest by lia; assumption].
    simpl. rewrite app_nil_r, length_take, length_zip.
    replace (k `min` (length U `min` length S))%nat with k by lia.
    split; [reflexivity|]. split; [rewrite length_insert; assumption|].
    intros j Hj. rewrite list_lookup_insert_ne by lia. apply Hrest. lia.
Qed.

Lemma zip_map_fst_snd {A B} (l : list (A * B)) : zip (map fst l) (map snd l) = l.
Proof. induction l as [|[a b] l IH]; simpl; congruence. Qed.

(** The loader, as written, and the loader, row by row, agree. *)
Lemma parse_csv_rows_eq fields :
  parse_csv int penalize_below_n_preferences fields =
  parse_csv_rows int penalize_below_n_preferences fields.
Proof.
  unfold parse_csv, parse_csv_rows.
  destruct (index fields 0) as [header|]; simpl; [|reflexivity].
  destruct (mapM (fun row => index row 0%nat) (drop 1 fields))
    as [students|] eqn:Hstudents; simpl; [|reflexivity].
  apply mapM_length in Hstudents.
  rewrite read_preferences_rows by auto.
  destruct (mapM (read_row int (drop 1 header)) (zip students (drop 1 fields)))
    as [rs|] eqn:Hrs; simpl; [|reflexivity].
  assert (length rs = length students) as Hlrs.
  { apply mapM_length in Hrs. rewrite Hrs, length_zip. lia. }
  rewrite check_sequence_rows by assumption.
  destruct (mapM check_row (zip students rs)) as [?|]; simpl; [|reflexivity].
  destruct (merge_prefix (map fst rs) (map snd rs) (length students))
    as (S' & Hrun & _); [rewrite !length_map; reflexivity | rewrite length_map; lia|].
  unfold range. rewrite Hrun. simpl.
  rewrite zip_map_fst_snd, take_ge by lia. reflexivity.
Qed.

End Refinement.

(** ** One row *)

Section RowFacts.

Variable int : string -> option Z.
Variable penalize_below_n_preferences : Z.

Lemma row_loop_scan sname topics row (k : nat) :
  forall (j : nat) (st : row_state),
  (j + 1 + k <= length row)%nat ->
  for_each (seq j k) (row_cell int sname topics row) st =
  scan_cells int sname topics (take k (drop (j + 1) row)) j st.
Proof.
  induction k as [|k IH]; intros j st Hlen; [reflexivity|].
  destruct (lookup_lt_is_Some_2 row (j + 1)) as [c Hc]; [lia|].
  rewrite (drop_S _ _ _ Hc). cbn [seq for_each take scan_cells].
  unfold row_cell at 1. rewrite (index_lookup _ _ _ Hc). cbn [bind].
  destruct (cell_step int sname topics c j st) as [st'|]; [cbn [bind]|reflexivity].
  rewrite (IH (S j)) by lia. reflexivity.
Qed.

(** A row shorter than the header is never read to its end. *)
Lemma row_loop_short sname topics row (k : nat) :
  forall (j : nat) (st : row_state),
  (length row < j + 1 + k)%nat -> (0 < k)%nat ->
  is_ok (for_each (seq j k) (row_cell int sname topics row) st) = false.
Proof.
  induction k as [|k IH]; intros j st Hlen Hk; [lia|].
  cbn [seq for_each]. unfold row_cell at 1.
  destruct (index row (j + 1)) as [c|] eqn:Hc; [cbn [bind]|reflexivity].
  destruct (cell_step int sname topics c j st) as [st'|]; [cbn [bind]|reflexivity].
  apply index_Ok, lookup_lt_Some in Hc.
  apply (IH (S j)); lia.
Qed.

Lemma read_row_scan topics sname row :
  (length topics + 1 <= length row)%nat ->
  read_row int topics (sname, row) =
  scan_cells int sname topics (preference_cells topics row) 0 ([], []).
Proof.
  intros Hlen. unfold read_row, range, preference_cells. simpl.
  rewrite row_loop_scan by lia. reflexivity.
Qed.

Lemma read_row_short topics sname row :
  (length row < length topics + 1)%nat -> (0 < length topics)%nat ->
  is_ok (read_row int topics (sname, row)) = false.
Proof.
  intros Hlen Hpos. unfold read_row, range. simpl.
  apply row_loop_short; lia.
Qed.

Lemma specified_at_values (cells : list string) (j : nat) :
  map snd (specified_at int j cells) = specified_values int cells.
Proof.
  unfold specified_values. generalize 0%nat as i. revert j.
  induction cells as [|c cells IH]; intros j i; simpl; [reflexivity|].
  destruct (String.eqb c ""); [apply IH|].
  destruct (int c); simpl; [f_equal|]; apply IH.
Qed.

Lemma specified_values_cons (c : string) (cells : list string) :
  specified_values int (c :: cells) =
  (if String.eqb c "" then []
   else match int c with Some p => [p] | None => [] end)
  ++ specified_values int cells.
Proof.
  unfold specified_values at 1. simpl.
  destruct (String.eqb c ""); [apply specified_at_values|].
  destruct (int c); simpl; [f_equal|]; apply specified_at_values.
Qed.

Lemma existsb_eqb_In (p : Z) (l : list Z) :
  existsb (Z.eqb p) l = true <-> In p l.
Proof.
  rewrite existsb_exists. split.
  - intros (q & Hq & Heq). apply Z.eqb_eq in Heq. subst. assumption.
  - intros H. exists p. split; [assumption | apply Z.eqb_refl].
Qed.

(** What [scan_cells] returns when it returns. *)
Lemma scan_cells_Ok sname topics cells :
  forall j u sp u' sp',
  scan_cells int sname topics cells j (u, sp) = Ok (u', sp') ->
  u' = u ++ unspecified_at j cells /\
  sp' = sp ++ specified_at int j cells /\
  all_integers int cells /\
  Forall (fun p => 1 <= p) (specified_values int cells) /\
  List.NoDup (specified_values int cells) /\
  (forall p, In p (specified_values int cells) -> ~ In p (map snd sp)).
Proof.
  induction cells as [|c cells IH]; intros j u sp u' sp' H.
  - injection H as <- <-. rewrite !app_nil_r.
    split_and!; try constructor; auto.
  - cbn [scan_cells] in H. apply bind_Ok_inv in H as ([u1 sp1] & Hstep & H).
    apply IH in H as (-> & -> & Hint & Hpos & Hnd & Hfresh). clear IH.
    rewrite specified_values_cons. unfold cell_step in Hstep. simpl.
    destruct (String.eqb c "") eqn:Hc.
    + injection Hstep as <- <-. apply String.eqb_eq in Hc.
      rewrite <- app_assoc. split_and!; auto.
      constructor; auto.
    + unfold int_of in Hstep. destruct (int c) as [p|] eqn:Hp; [|discriminate].
      cbn [bind] in Hstep.
      destruct (p <? 1) eqn:Hlt; [destruct (index topics j); discriminate|].
      destruct (existsb (Z.eqb p) (map snd sp)) eqn:Hdup;
        [destruct (index topics j); discriminate|].
      injection Hstep as <- <-. apply Z.ltb_ge in Hlt.
      assert (~ In p (map snd sp)) as Hnew.
      { rewrite <- existsb_eqb_In. congruence. }
      rewrite <- app_assoc. split_and!; [reflexivity | reflexivity | | | |].
      * constructor; [right; rewrite Hp; eauto | assumption].
      * constructor; auto.
      * constructor; auto. intros Hin. apply (Hfresh p Hin).
        rewrite map_app. apply in_or_app. right. left. reflexivity.
      * intros q [<- | Hq]; [assumption|].
        intros Hin. apply (Hfresh q Hq). rewrite map_app. apply in_or_app. auto.
Qed.

(** When [scan_cells] returns. *)
Lemma scan_cells_accepts sname topics cells :
  forall j u sp,
  all_integers int cells ->
  Forall (fun p => 1 <= p) (specified_values int cells) ->
  List.NoDup (specified_values int cells) ->
  (forall p, In p (specified_values int cells) -> ~ In p (map snd sp)) ->
  scan_cells int sname topics cells j (u, sp) =
  Ok (u ++ unspecified_at j cells, sp ++ specified_at int j cells).
Proof.
  induction cells as [|c cells IH]; intros j u sp Hint Hpos Hnd Hfresh.
  - simpl. rewrite !app_nil_r. reflexivity.
  - rewrite specified_values_cons in Hpos, Hnd, Hfresh.
    inversion Hint as [|? ? Hc Hint']; subst.
    cbn [scan_cells]. unfold cell_step. simpl.
    destruct (String.eqb c "") eqn:Hce.
    + cbn [bind]. rewrite IH by auto. rewrite <- app_assoc. reflexivity.
    + destruct Hc as [-> | [p Hp]]; [discriminate|].
      unfold int_of. rewrite Hp in *. cbn [bind].
      simpl in Hpos, Hnd, Hfresh.
      inversion Hpos as [|? ? Hp1 Hpos']; subst.
      inversion Hnd as [|? ? Hnotin Hnd']; subst.
      destruct (p <? 1) eqn:Hlt; [apply Z.ltb_lt in Hlt; lia|].
      destruct (existsb (Z.eqb p) (map snd sp)) eqn:Hdup.
      { apply existsb_eqb_In in Hdup. exfalso. apply (Hfresh p); auto. }
      cbn [bind]. rewrite IH; auto.
      * rewrite <- !app_assoc. reflexivity.
      * intros q Hq Hin. rewrite map_app in Hin. apply in_app_or in Hin.
        destruct Hin as [Hin | [<- | []]]; [apply (Hfresh q); auto | auto].
Qed.

End RowFacts.

(** ** Rankings: distinct positive values that sum to k(k+1)/2 *)

Lemma py_sum_from (l : list Z) (a : Z) : fold_left Z.add l a = a + py_sum l.
Proof.
  unfold py_sum. revert a. induction l as [|x l IH]; intros a; cbn [fold_left]; [lia|].
  rewrite (IH (a + x)), (IH (0 + x)). lia.
Qed.

Lemma py_sum_cons (x : Z) (l : list Z) : py_sum (x :: l) = x + py_sum l.
Proof. unfold py_sum at 1. simpl. apply py_sum_from. Qed.

Lemma py_sum_app (l l' : list Z) : py_sum (l ++ l') = py_sum l + py_sum l'.
Proof.
  induction l as [|x l IH]; simpl; [reflexivity|].
  rewrite !py_sum_cons, IH. lia.
Qed.

Lemma py_sum_Permutation (l l' : list Z) : Permutation l l' -> py_sum l = py_sum l'.
Proof.
  induction 1 as [|x l l' _ IH|x y l|l l' l'' _ IH1 _ IH2];
    rewrite ?py_sum_cons; lia.
Qed.

Lemma one_to_S (k : nat) : one_to (S k) = one_to k ++ [Z.of_nat (S k)].
Proof. unfold one_to. rewrite seq_S, map_app. reflexivity. Qed.

Lemma one_to_length (k : nat) : length (one_to k) = k.
Proof. unfold one_to. rewrite length_map, length_seq. reflexivity. Qed.

Lemma one_to_In (k : nat) (v : Z) : In v (one_to k) <-> 1 <= v <= Z.of_nat k.
Proof.
  unfold one_to. rewrite in_map_iff. split.
  - intros (i & <- & Hi). apply in_seq in Hi. lia.
  - intros Hv. exists (Z.to_nat v). split; [lia|]. apply in_seq. lia.
Qed.

Lemma one_to_NoDup (k : nat) : List.NoDup (one_to k).
Proof.
  unfold one_to. apply Finite.Injective_map_NoDup; [|apply seq_NoDup].
  intros i j H. lia.
Qed.

Lemma one_to_sum (k : nat) : 2 * py_sum (one_to k) = Z.of_nat k * (Z.of_nat k + 1).
Proof.
  induction k as [|k IH]; [reflexivity|].
  rewrite one_to_S, py_sum_app, py_sum_cons. unfold py_sum at 2. simpl fold_left.
  lia.
Qed.

Lemma list_max_exists (l : list Z) :
  l <> [] -> exists m, In m l /\ Forall (fun v => v <= m) l.
Proof.
  induction l as [|x l IH]; [congruence|]. intros _.
  destruct l as [|y l].
  - exists x. split; [left; reflexivity|]. constructor; [lia | constructor].
  - destruct IH as (m & Hin & Hle); [discriminate|].
    destruct (Z_le_gt_dec x m).
    + exists m. split; [right; assumption|]. constructor; assumption.
    + exists x. split; [left; reflexivity|]. constructor; [lia|].
      eapply List.Forall_impl; [|exact Hle]. simpl. intros; lia.
Qed.

(** Distinct positive integers: there are at most as many as the largest. *)
Lemma distinct_positive_length (l : list Z) (m : Z) :
  List.NoDup l -> Forall (fun v => 1 <= v <= m) l -> Z.of_nat (length l) <= Z.max 0 m.
Proof.
  intros Hnd Hrange.
  assert (length l <= length (one_to (Z.to_nat m)))%nat as H.
  { apply NoDup_incl_length; [assumption|]. intros v Hv. apply one_to_In.
    rewrite List.Forall_forall in Hrange. specialize (Hrange v Hv). lia. }
  rewrite one_to_length in H. lia.
Qed.

(** [k] distinct positive integers sum to at least [k * (k + 1) / 2],
    and to exactly that only when they are [1, ..., k]. *)
Lemma ranking_lower_bound (k : nat) :
  forall l : list Z,
  length l = k -> Forall (fun v => 1 <= v) l -> List.NoDup l ->
  Z.of_nat k * (Z.of_nat k + 1) <= 2 * py_sum l /\
  (2 * py_sum l = Z.of_nat k * (Z.of_nat k + 1) -> Permutation l (one_to k)).
Proof.
  induction k as [|k IH]; intros l Hlen Hpos Hnd.
  - destruct l; [|discriminate]. split; [reflexivity | constructor].
  - destruct (list_max_exists l) as (m & Hin & Hmax).
    { intros ->. discriminate. }
    apply in_split in Hin as (l1 & l2 & ->).
    assert (Permutation (l1 ++ m :: l2) (m :: l1 ++ l2)) as Hperm.
    { symmetry. apply Permutation_middle. }
    rewrite (py_sum_Permutation _ _ Hperm), py_sum_cons.
    rewrite (Permutation_length Hperm) in Hlen. simpl in Hlen.
    eapply Permutation_NoDup in Hnd; [|exact Hperm].
    rewrite Hperm in Hpos, Hmax.
    inversion Hnd as [|? ? Hnotin Hnd']; subst.
    inversion Hpos as [|? ? Hm Hpos']; subst.
    inversion Hmax as [|? ? _ Hmax']; subst.
    destruct (IH (l1 ++ l2)) as [Hlow Heq]; [lia | assumption | assumption |].
    assert (Z.of_nat k <= m - 1) as Hk.
    { assert (Z.of_nat (length (l1 ++ l2)) <= Z.max 0 (m - 1)) as H.
      { apply distinct_positive_length; [assumption|].
        rewrite List.Forall_forall in *. intros v Hv.
        specialize (Hpos' v Hv). specialize (Hmax' v Hv).
        assert (v <> m) by (intros ->; contradiction). lia. }
      lia. }
    split; [lia|]. intros Hsum.
    assert (m = Z.of_nat (S k)) as -> by lia.
    rewrite Hperm, one_to_S, <- Permutation_cons_append.
    constructor. apply Heq. lia.
Qed.

(** The sum test of the loader, on distinct positive values. *)
Lemma ranking_iff (l : list Z) :
  Forall (fun v => 1 <= v) l -> List.NoDup l ->
  2 * py_sum l = Z.of_nat (length l) * (Z.of_nat (length l) + 1) <->
  Permutation l (one_to (length l)).
Proof.
  intros Hpos Hnd. split.
  - apply ranking_lower_bound; auto.
  - intros H. rewrite (py_sum_Permutation _ _ H). apply one_to_sum.
Qed.

Lemma Permutation_one_to (l : list Z) (k : nat) :
  Permutation l (one_to k) -> Forall (fun v => 1 <= v) l /\ List.NoDup l.
Proof.
  intros H. split.
  - rewrite List.Forall_forall. intros v Hv.
    apply (Permutation_in _ H), one_to_In in Hv. lia.
  - eapply Permutation_NoDup; [symmetry; exact H | apply one_to_NoDup].
Qed.

Lemma expected_preference_sum_eq (k : nat) (s : Z) :
  Qeq_bool (expected_preference_sum k) (inject_Z s) = true <->
  2 * s = Z.of_nat k * (Z.of_nat k + 1).
Proof.
  rewrite Qeq_bool_iff. unfold expected_preference_sum, Qeq, Qdiv, Qmult, Qinv, inject_Z.
  simpl. lia.
Qed.

Lemma check_row_Ok (sname : string) (u : list nat) (sp : list (nat * Z)) :
  2 * py_sum (map snd sp) = Z.of_nat (length sp) * (Z.of_nat (length sp) + 1) ->
  check_row (sname, (u, sp)) = Ok tt.
Proof.
  intros H. unfold check_row. simpl.
  apply expected_preference_sum_eq in H. rewrite H. reflexivity.
Qed.

Lemma check_row_Err (sname : string) (u : list nat) (sp : list (nat * Z)) :
  2 * py_sum (map snd sp) <> Z.of_nat (length sp) * (Z.of_nat (length sp) + 1) ->
  check_row (sname, (u, sp)) = Err (ValueError (NotSequence sname)).
Proof.
  intros H. unfold check_row. simpl.
  destruct (Qeq_bool _ _) eqn:E; [|reflexivity].
  apply expected_preference_sum_eq in E. contradiction.
Qed.

(** ** The whole table *)

Section TableFacts.

Variable int : string -> option Z.
Variable penalize_below_n_preferences : Z.

Lemma specified_at_length (cells : list string) (j : nat) :
  length (specified_at int j cells) = length (specified_values int cells).
Proof. rewrite <- (specified_at_values int cells j), length_map. reflexivity. Qed.

Lemma read_row_readable topics sname row :
  row_readable int topics row ->
  read_row int topics (sname, row) = Ok (row_result int (preference_cells topics row)).
Proof.
  intros (Hlen & Hint & Hpos & Hnd).
  rewrite read_row_scan by assumption.
  apply (scan_cells_accepts int sname topics _ 0%nat [] []); auto.
Qed.

Lemma read_row_Ok topics sname row r :
  row <> [] ->
  read_row int topics (sname, row) = Ok r ->
  row_readable int topics row /\ r = row_result int (preference_cells topics row).
Proof.
  intros Hne H.
  assert (length topics + 1 <= length row)%nat as Hlen.
  { destruct (le_lt_dec (length topics + 1) (length row)) as [|Hshort]; [assumption|].
    destruct row; [congruence|]. simpl in Hshort.
    pose proof (f_equal is_ok H) as E.
    rewrite read_row_short in E by (simpl; lia). discriminate. }
  rewrite read_row_scan in H by assumption. destruct r as [u sp].
  apply scan_cells_Ok in H as (-> & -> & Hint & Hpos & Hnd & _).
  split; [|reflexivity]. repeat split; assumption.
Qed.

Lemma students_Ok (rows : list (list string)) (students : list string) :
  mapM (fun row => index row 0%nat) rows = Ok students <->
  Forall2 (fun row sname => row !! 0%nat = Some sname) rows students.
Proof.
  rewrite mapM_Ok.
  split; intros H; (eapply Forall2_impl; [exact H|]); intros row sname; apply index_Ok.
Qed.

Lemma rows_read_Ok topics :
  forall rows students rs,
  Forall2 (fun row sname => row !! 0%nat = Some sname) rows students ->
  mapM (read_row int topics) (zip students rows) = Ok rs ->
  Forall (row_readable int topics) rows /\
  rs = map (fun row => row_result int (preference_cells topics row)) rows.
Proof.
  induction rows as [|row rows IH]; intros students rs Hst H.
  - inversion Hst; subst. simpl in H. injection H as <-. split; constructor.
  - inversion Hst as [|? sname ? students' Hrow Hst']; subst.
    simpl in H. apply bind_Ok_inv in H as (r & Hr & H).
    apply bind_Ok_inv in H as (rs' & Hrs' & [= <-]).
    apply read_row_Ok in Hr as [Hread ->]; [|intros ->; discriminate].
    destruct (IH _ _ Hst' Hrs') as [Hall ->].
    split; [constructor; assumption | reflexivity].
Qed.

Lemma rows_read_readable topics :
  forall rows students,
  length students = length rows ->
  Forall (row_readable int topics) rows ->
  mapM (read_row int topics) (zip students rows) =
  Ok (map (fun row => row_result int (preference_cells topics row)) rows).
Proof.
  induction rows as [|row rows IH]; intros students Hlen Hall.
  - destruct students; reflexivity.
  - destruct students as [|sname students]; [discriminate|].
    inversion Hall as [|? ? Hrow Hall']; subst. simpl.
    rewrite (read_row_readable _ _ _ Hrow). simpl.
    rewrite IH by (simpl in Hlen; auto; lia). reflexivity.
Qed.

Lemma half_of_product (k : nat) (s : Z) :
  s = Z.of_nat k * (Z.of_nat k + 1) / 2 <-> 2 * s = Z.of_nat k * (Z.of_nat k + 1).
Proof.
  assert (exists q, Z.of_nat k * (Z.of_nat k + 1) = 2 * q) as [q Hq].
  { induction k as [|k [q IH]]; [exists 0; reflexivity|].
    exists (q + Z.of_nat k + 1). lia. }
  rewrite Hq. replace (2 * q / 2) with q; [lia|].
  symmetry. rewrite Z.mul_comm. apply Z.div_mul. lia.
Qed.

Lemma check_row_result sname cells :
  let values := specified_values int cells in
  check_row (sname, row_result int cells) =
  if decide (py_sum values = Z.of_nat (length values) * (Z.of_nat (length values) + 1) / 2)
  then Ok tt else Err (ValueError (NotSequence sname)).
Proof.
  intros values. unfold row_result.
  destruct (decide _) as [H|H]; rewrite half_of_product in H.
  - apply check_row_Ok. rewrite specified_at_values, specified_at_length. exact H.
  - apply check_row_Err. rewrite specified_at_values, specified_at_length. exact H.
Qed.

Lemma rows_checked topics :
  forall rows students,
  length students = length rows ->
  is_ok (mapM check_row
           (zip students
              (map (fun row => row_result int (preference_cells topics row)) rows)))
  = true <->
  Forall (sum_test int topics) rows.
Proof.
  induction rows as [|row rows IH]; intros students Hlen.
  - destruct students; simpl; split; auto.
  - destruct students as [|sname students]; [discriminate|].
    simpl. rewrite check_row_result. fold (sum_test int topics row).
    rewrite List.Forall_cons_iff, <- (IH students) by (simpl in Hlen; lia).
    destruct (decide (sum_test int topics row)) as [H|H]; simpl.
    + destruct (mapM _ _); simpl; split; auto; intros [_ ?]; assumption.
    + split; [discriminate | intros [? _]; contradiction].
Qed.

Lemma row_accepted_iff topics row :
  row_accepted int topics row <->
  row_readable int topics row /\ sum_test int topics row.
Proof.
  unfold row_accepted, row_readable, cells_readable, sum_test. split.
  - intros (Hlen & Hint & Hperm).
    destruct (Permutation_one_to _ _ Hperm) as [Hpos Hnd].
    split_and!; auto. apply half_of_product, ranking_iff; assumption.
  - intros ((Hlen & Hint & Hpos & Hnd) & Hsum).
    split_and!; auto. apply ranking_iff; [assumption | assumption |].
    apply half_of_product. assumption.
Qed.

(** The inputs the loader accepts, and what it returns for them. *)
Lemma parse_csv_Ok_iff fields students topics preferences :
  parse_csv int penalize_below_n_preferences fields = Ok (students, topics, preferences)
  <->
  exists header rows,
    fields = header :: rows /\
    topics = drop 1 header /\
    Forall2 (fun row sname => row !! 0%nat = Some sname) rows students /\
    Forall (row_accepted int topics) rows /\
    preferences = expected_preferences int penalize_below_n_preferences topics rows.
Proof.
  rewrite parse_csv_rows_eq. unfold parse_csv_rows. split.
  - intros H. destruct fields as [|header rows]; [discriminate|].
    change (index (header :: rows) 0) with (Ok (A:=list string) header) in H.
    change (drop 1 (header :: rows)) with rows in H. cbn [bind] in H.
    apply bind_Ok_inv in H as (students' & Hst & H).
    apply bind_Ok_inv in H as (rs & Hrs & H).
    apply bind_Ok_inv in H as (units & Hchk & [= -> <- <-]).
    apply students_Ok in Hst.
    destruct (rows_read_Ok _ _ _ _ Hst Hrs) as [Hread ->].
    exists header, rows. split_and!; auto.
    assert (Forall (sum_test int (drop 1 header)) rows) as Hsum.
    { apply (rows_checked _ _ students); [symmetry; eapply Forall2_length; eauto|].
      rewrite Hchk. reflexivity. }
    rewrite List.Forall_forall in *. intros row Hrow.
    apply row_accepted_iff. auto.
  - intros (header & rows & -> & -> & Hst & Hacc & ->).
    change (index (header :: rows) 0) with (Ok (A:=list string) header).
    change (drop 1 (header :: rows)) with rows. cbn [bind].
    pose proof (Forall2_length _ _ _ Hst) as Hlen.
    apply students_Ok in Hst. rewrite Hst. cbn [bind].
    assert (Forall (row_readable int (drop 1 header)) rows /\
            Forall (sum_test int (drop 1 header)) rows) as [Hread Hsum].
    { rewrite !List.Forall_forall in *.
      split; intros row Hrow; apply (row_accepted_iff (drop 1 header) row); auto. }
    rewrite rows_read_readable by auto. cbn [bind].
    apply (rows_checked _ _ students) in Hsum; [|auto].
    destruct (mapM check_row _); [reflexivity | discriminate].
Qed.

End TableFacts.

(** ** The first cell that raises *)

Section FirstError.

Variable int : string -> option Z.
Variable penalize_below_n_preferences : Z.

Lemma read_row_first_error topics sname row topic e :
  (topic < length topics)%nat ->
  (topic + 1 <= length row)%nat ->
  cells_readable int (take topic (drop 1 row)) ->
  row_cell int sname topics row topic (row_result int (take topic (drop 1 row))) = Err e ->
  read_row int topics (sname, row) = Err e.
Proof.
  intros Htopic Hlen (Hint & Hpos & Hnd) Hcell. unfold read_row, range. simpl.
  replace (length topics) with (topic + S (length topics - S topic))%nat by lia.
  rewrite seq_app, for_each_app, row_loop_scan by lia. simpl.
  rewrite (scan_cells_accepts int sname topics _ 0%nat [] []); auto.
  cbn [bind for_each seq app]. unfold row_result in Hcell. simpl in Hcell.
  rewrite Hcell. reflexivity.
Qed.

Lemma students_exist (rows : list (list string)) :
  Forall (fun row => row <> []) rows ->
  exists students, Forall2 (fun row sname => row !! 0%nat = Some sname) rows students.
Proof.
  induction 1 as [|row rows Hrow _ [students IH]].
  - exists []. constructor.
  - destruct row as [|sname row]; [congruence|].
    exists (sname :: students). constructor; [reflexivity | assumption].
Qed.

(** If the reading loops get to a cell and the cell raises, that is
    the exception of the loader. *)
Lemma parse_csv_first_error header rows student topic row sname e :
  reaches int (drop 1 header) rows student topic ->
  rows !! student = Some row ->
  row !! 0%nat = Some sname ->
  row_cell int sname (drop 1 header) row topic
    (row_result int (take topic (drop 1 row))) = Err e ->
  parse_csv int penalize_below_n_preferences (header :: rows) = Err e.
Proof.
  intros (Hne & Hbefore & Htopic & row' & Hrow' & Hlen & Hcells) Hrow Hname Hcell.
  assert (row' = row) as -> by congruence.
  rewrite parse_csv_rows_eq. unfold parse_csv_rows.
  change (index (header :: rows) 0) with (Ok (A:=list string) header).
  change (drop 1 (header :: rows)) with rows. cbn [bind].
  destruct (students_exist rows Hne) as [students Hst].
  pose proof (Forall2_length _ _ _ Hst) as Hlst.
  rewrite (proj2 (students_Ok rows students) Hst). cbn [bind].
  assert (mapM (read_row int (drop 1 header)) (zip students rows) = Err e) as ->;
    [|reflexivity].
  apply mapM_Err. exists student, (sname, row). split_and!.
  - apply lookup_zip_with_Some. exists sname, row. split_and!; auto.
    destruct (Forall2_lookup_l _ _ _ _ _ Hst Hrow) as (sname' & Hs & Hs').
    congruence.
  - apply (read_row_first_error _ _ _ topic); assumption.
  - intros j [sj rj] Hj Hz.
    apply lookup_zip_with_Some in Hz as (? & ? & [= <- <-] & _ & Hrj).
    rewrite read_row_readable; [reflexivity|].
    rewrite List.Forall_forall in Hbefore. apply Hbefore.
    apply list_elem_of_In, list_elem_of_lookup. exists j.
    rewrite lookup_take_lt by lia. assumption.
Qed.

(** A cell the loops get through, in any state. *)
Lemma cell_step_literal sname topics c topic st :
  c <> "" -> int c = None ->
  cell_step int sname topics c topic st = Err (ValueError (InvalidLiteral c)).
Proof.
  intros Hc Hint. unfold cell_step, int_of. destruct st as [u sp].
  apply String.eqb_neq in Hc. rewrite Hc, Hint. reflexivity.
Qed.

Lemma cell_step_less_than_one sname topics tname c topic st p :
  c <> "" -> int c = Some p -> p < 1 ->
  topics !! topic = Some tname ->
  cell_step int sname topics c topic st = Err (ValueError (LessThanOne p sname tname)).
Proof.
  intros Hc Hint Hp Ht. unfold cell_step, int_of. destruct st as [u sp].
  apply String.eqb_neq in Hc. apply Z.ltb_lt in Hp.
  rewrite Hc, Hint. cbn [bind]. rewrite Hp, (index_lookup _ _ _ Ht). reflexivity.
Qed.

Lemma cell_step_not_unique sname topics tname c topic u sp p :
  c <> "" -> int c = Some p -> 1 <= p -> In p (map snd sp) ->
  topics !! topic = Some tname ->
  cell_step int sname topics c topic (u, sp) =
  Err (ValueError (NotUnique p sname tname)).
Proof.
  intros Hc Hint Hp Hin Ht. unfold cell_step, int_of.
  apply String.eqb_neq in Hc. apply Z.ltb_ge in Hp. apply existsb_eqb_In in Hin.
  rewrite Hc, Hint. cbn [bind]. rewrite Hp, Hin, (index_lookup _ _ _ Ht). reflexivity.
Qed.

End FirstError.

(** ** The preference list of an accepted table *)

Section Preferences.

Variable int : string -> option Z.
Variable penalize_below_n_preferences : Z.

Lemma unspecified_at_In (cells : list string) :
  forall j t, In t (unspecified_at j cells) <->
              (j <= t)%nat /\ cells !! (t - j)%nat = Some "".
Proof.
  induction cells as [|c cells IH]; intros j t; simpl.
  - split; [intros [] | intros [_ H]; discriminate].
  - destruct (String.eqb c "") eqn:Hc.
    + apply String.eqb_eq in Hc. subst c. simpl. rewrite IH. split.
      * intros [<- | [Hle H]].
        -- rewrite Nat.sub_diag. auto.
        -- replace (t - j)%nat with (S (t - S j)) by lia. split; [lia | assumption].
      * intros [Hle H]. destruct (decide (j = t)) as [|Hne]; [auto|].
        right. split; [lia|]. replace (t - j)%nat with (S (t - S j)) in H by lia.
        exact H.
    + apply String.eqb_neq in Hc. rewrite IH. split.
      * intros [Hle H]. replace (t - j)%nat with (S (t - S j)) by lia.
        split; [lia | assumption].
      * intros [Hle H]. destruct (decide (j = t)) as [->|Hne].
        -- rewrite Nat.sub_diag in H. simpl in H. congruence.
        -- replace (t - j)%nat with (S (t - S j)) in H by lia. split; [lia | exact H].
Qed.

Lemma specified_at_In (cells : list string) :
  forall j t p, In (t, p) (specified_at int j cells) <->
                (j <= t)%nat /\
                exists c, cells !! (t - j)%nat = Some c /\ c <> "" /\ int c = Some p.
Proof.
  induction cells as [|c cells IH]; intros j t p; simpl.
  - split; [intros [] | intros (_ & c & H & _); discriminate].
  - assert (In (t, p) (specified_at int (S j) cells) <->
            (j < t)%nat /\
            exists c', (c :: cells) !! (t - j)%nat = Some c' /\ c' <> "" /\
                       int c' = Some p) as Htail.
    { rewrite IH. split.
      - intros (Hle & c' & H & Hne & Hp). split; [lia|]. exists c'.
        replace (t - j)%nat with (S (t - S j)) by lia. auto.
      - intros (Hlt & c' & H & Hne & Hp). split; [lia|]. exists c'.
        replace (t - j)%nat with (S (t - S j)) in H by lia. auto. }
    destruct (String.eqb c "") eqn:Hc.
    + apply String.eqb_eq in Hc. subst c. rewrite Htail. split.
      * intros [Hlt H]. split; [lia | exact H].
      * intros (Hle & c' & H & Hne & Hp). destruct (decide (j = t)) as [->|].
        -- rewrite Nat.sub_diag in H. simpl in H. congruence.
        -- split; [lia|]. eauto.
    + apply String.eqb_neq in Hc. destruct (int c) as [q|] eqn:Hq.
      * simpl. rewrite Htail. split.
        -- intros [[= <- <-] | [Hlt H]].
           ++ split; [lia|]. exists c. rewrite Nat.sub_diag. auto.
           ++ split; [lia | exact H].
        -- intros (Hle & c' & H & Hne & Hp). destruct (decide (j = t)) as [->|].
           ++ rewrite Nat.sub_diag in H. simpl in H. left. congruence.
           ++ right. split; [lia|]. eauto.
      * rewrite Htail. split.
        -- intros [Hlt H]. split; [lia | exact H].
        -- intros (Hle & c' & H & Hne & Hp). destruct (decide (j = t)) as [->|].
           ++ rewrite Nat.sub_diag in H. simpl in H. congruence.
           ++ split; [lia|]. eauto.
Qed.

Lemma specified_values_In (cells : list string) (p : Z) :
  In p (specified_values int cells) <->
  exists t c, cells !! t = Some c /\ c <> "" /\ int c = Some p.
Proof.
  unfold specified_values. rewrite in_map_iff. split.
  - intros ([t q] & <- & H). apply specified_at_In in H as (_ & c & H & Hne & Hp).
    rewrite Nat.sub_0_r in H. eauto.
  - intros (t & c & H & Hne & Hp). exists (t, p). split; [reflexivity|].
    apply specified_at_In. split; [lia|]. exists c. rewrite Nat.sub_0_r. auto.
Qed.

Lemma merge_row_In student s t c (u : list nat) (sp : list (nat * Z)) :
  In (s, t, c) (merge_row penalize_below_n_preferences student (u, sp)) <->
  s = student /\
  (In (t, c) sp \/
   (In t u /\ c = default_cost penalize_below_n_preferences (map snd sp))).
Proof.
  unfold merge_row. rewrite in_map_iff. split.
  - intros ([t' c'] & [= <- <- <-] & H). split; [reflexivity|].
    apply in_app_or in H as [H | H]; [auto|].
    apply in_map_iff in H as (t'' & [= <- <-] & H). auto.
  - intros (-> & H). exists (t, c). split; [reflexivity|].
    apply in_or_app. destruct H as [H | [H ->]]; [auto|].
    right. apply in_map_iff. eauto.
Qed.

Lemma merge_rows_In (rs : list row_state) :
  forall i s t c,
  In (s, t, c) (merge_rows penalize_below_n_preferences i rs) <->
  (i <= s)%nat /\
  exists r, rs !! (s - i)%nat = Some r /\
            In (s, t, c) (merge_row penalize_below_n_preferences s r).
Proof.
  induction rs as [|[u sp] rs IH]; intros i s t c; simpl.
  - split; [intros [] | intros (_ & r & H & _); discriminate].
  - rewrite in_app_iff, IH. split.
    + intros [H | (Hle & r & Hr & H)].
      * pose proof (proj1 (merge_row_In _ _ _ _ _ _) H) as [-> _].
        split; [lia|]. exists (u, sp). rewrite Nat.sub_diag. auto.
      * split; [lia|]. exists r. replace (s - i)%nat with (S (s - S i)) by lia. auto.
    + intros (Hle & r & Hr & H). destruct (decide (i = s)) as [->|].
      * rewrite Nat.sub_diag in Hr. injection Hr as <-. auto.
      * right. split; [lia|]. exists r.
        replace (s - i)%nat with (S (s - S i)) in Hr by lia. auto.
Qed.

(** The triples of the preference list, read off the table. *)
Lemma expected_preferences_In topics rows s t c :
  In (s, t, c) (expected_preferences int penalize_below_n_preferences topics rows) <->
  exists row,
    rows !! s = Some row /\
    ((exists str, preference_cells topics row !! t = Some str /\ str <> "" /\
                  int str = Some c) \/
     (preference_cells topics row !! t = Some "" /\
      c = default_cost penalize_below_n_preferences
            (specified_values int (preference_cells topics row)))).
Proof.
  unfold expected_preferences. rewrite merge_rows_In, Nat.sub_0_r. split.
  - intros (_ & r & Hr & H). rewrite list_lookup_fmap in Hr.
    destruct (rows !! s) as [row|] eqn:Hrow; [|discriminate].
    injection Hr as <-. exists row. split; [reflexivity|].
    apply merge_row_In in H as (_ & [H | [H ->]]).
    + left. apply specified_at_In in H as (_ & str & H & Hne & Hp).
      rewrite Nat.sub_0_r in H. eauto.
    + right. apply unspecified_at_In in H as [_ H]. rewrite Nat.sub_0_r in H.
      rewrite specified_at_values. auto.
  - intros (row & Hrow & H). split; [lia|].
    exists (row_result int (preference_cells topics row)).
    split; [rewrite list_lookup_fmap, Hrow; reflexivity|].
    apply merge_row_In. split; [reflexivity|].
    destruct H as [(str & H & Hne & Hp) | [H ->]].
    + left. apply specified_at_In. split; [lia|]. exists str.
      rewrite Nat.sub_0_r. auto.
    + right. split; [|rewrite specified_at_values; reflexivity].
      apply unspecified_at_In. rewrite Nat.sub_0_r. split; [lia | assumption].
Qed.

(** [max] of a non-empty list is its greatest element. *)
Lemma fold_max_spec (l : list Z) (x : Z) :
  In (fold_left Z.max l x) (x :: l) /\
  Forall (fun v => v <= fold_left Z.max l x) (x :: l).
Proof.
  revert x. induction l as [|y l IH]; intros x; simpl.
  - split; [auto | constructor; [lia | constructor]].
  - destruct (IH (Z.max x y)) as [Hin Hall].
    inversion Hall as [|? ? Hm Hall']; subst. split.
    + destruct Hin as [Hin | Hin]; [|right; right; exact Hin].
      rewrite <- Hin. destruct (Z.max_spec x y) as [[_ E] | [_ E]].
      * right. left. symmetry. exact E.
      * left. symmetry. exact E.
    + constructor; [lia|]. constructor; [lia | assumption].
Qed.

Lemma default_cost_nonempty (values : list Z) :
  values <> [] ->
  exists mx, In mx values /\ Forall (fun v => v <= mx) values /\
             default_cost penalize_below_n_preferences values =
             mx + penalize_below_n_preferences.
Proof.
  destruct values as [|x l]; [congruence|]. intros _.
  exists (fold_left Z.max l x). destruct (fold_max_spec l x). auto.
Qed.

Lemma no_values_all_empty (cells : list string) :
  all_integers int cells -> specified_values int cells = [] ->
  Forall (fun c => c = "") cells.
Proof.
  induction 1 as [|c cells Hc _ IH]; [constructor|].
  rewrite specified_values_cons. destruct Hc as [-> | [p Hp]].
  - simpl. constructor; auto.
  - destruct (String.eqb c "") eqn:E.
    + apply String.eqb_eq in E. constructor; auto.
    + rewrite Hp. discriminate.
Qed.

Lemma preference_cells_length topics row :
  (length topics + 1 <= length row)%nat ->
  length (preference_cells topics row) = length topics.
Proof. intros H. unfold preference_cells. rewrite length_take, length_drop. lia. Qed.

End Preferences.

(** * The loader: default costs *)

Section LoaderClaims.

Variable int : string -> option Z.
Variable penalize_below_n_preferences : Z.

Lemma parse_csv_Ok_rows fields students topics preferences :
  parse_csv int penalize_below_n_preferences fields = Ok (students, topics, preferences) ->
  length students = length (drop 1 fields) /\
  Forall (row_accepted int topics) (drop 1 fields) /\
  preferences =
    expected_preferences int penalize_below_n_preferences topics (drop 1 fields).
Proof.
  intros H. apply parse_csv_Ok_iff in H as (header & rows & -> & -> & Hst & Hacc & ->).
  change (drop 1 (header :: rows)) with rows.
  split_and!; auto. symmetry. eapply Forall2_length; eauto.
Qed.

Lemma accepted_row_lookup topics (rows : list (list string)) student row :
  Forall (row_accepted int topics) rows -> rows !! student = Some row ->
  row_accepted int topics row.
Proof.
  intros Hall Hrow. rewrite List.Forall_forall in Hall. apply Hall.
  apply list_elem_of_In, list_elem_of_lookup. eauto.
Qed.

(** C1.  For every student row of an accepted table: if the student
    specified at least one preference, every topic the student left
    empty gets exactly one cost, the greatest specified value plus the
    threshold; if the student specified none, every topic gets exactly
    the cost threshold + 1. *)
Theorem unspecified_topics_get_default_cost
    fields students topics preferences student row :
  parse_csv int penalize_below_n_preferences fields = Ok (students, topics, preferences) ->
  drop 1 fields !! student = Some row ->
  let cells := preference_cells topics row in
  let values := specified_values int cells in
  (values <> [] ->
   exists mx, In mx values /\ Forall (fun v => v <= mx) values /\
     forall topic, cells !! topic = Some "" ->
     forall c, In (student, topic, c) preferences <->
               c = mx + penalize_below_n_preferences) /\
  (values = [] ->
   forall topic, (topic < length topics)%nat ->
   forall c, In (student, topic, c) preferences <->
             c = penalize_below_n_preferences + 1).
Proof.
  intros H Hrow cells values.
  apply parse_csv_Ok_rows in H as (_ & Hacc & ->).
  pose proof (accepted_row_lookup _ _ _ _ Hacc Hrow) as (Hlen & Hint & _).
  assert (forall topic c, cells !! topic = Some "" ->
            In (student, topic, c)
              (expected_preferences int penalize_below_n_preferences topics
                 (drop 1 fields)) <->
            c = default_cost penalize_below_n_preferences values) as Hdefault.
  { intros topic c Hcell. rewrite expected_preferences_In. split.
    - intros (row' & Hrow' & [(str & Hstr & Hne & _) | [_ ->]]);
        assert (row' = row) as -> by congruence; [|reflexivity].
      fold cells in Hstr. congruence.
    - intros ->. exists row. auto. }
  split.
  - intros Hne. destruct (default_cost_nonempty penalize_below_n_preferences values Hne)
      as (mx & Hin & Hmax & Hcost).
    exists mx. split_and!; auto. intros topic Hcell c.
    rewrite (Hdefault topic c Hcell), Hcost. reflexivity.
  - intros Hnil topic Htopic c.
    assert (cells !! topic = Some "") as Hcell.
    { pose proof (no_values_all_empty int cells Hint Hnil) as Hempty.
      destruct (lookup_lt_is_Some_2 cells topic) as [str Hstr].
      { unfold cells. rewrite preference_cells_length; assumption. }
      rewrite List.Forall_forall in Hempty. rewrite Hstr. f_equal. apply Hempty.
      apply list_elem_of_In, list_elem_of_lookup. eauto. }
    rewrite (Hdefault topic c Hcell). fold values. rewrite Hnil. reflexivity.
Qed.

(** C9, as the code has it.  For every accepted table and every
    threshold that is not negative, every triple of the preference
    list has a cost of at least 1. *)
Theorem costs_positive fields students topics preferences :
  0 <= penalize_below_n_preferences ->
  parse_csv int penalize_below_n_preferences fields = Ok (students, topics, preferences) ->
  forall student topic c, In (student, topic, c) preferences -> 1 <= c.
Proof.
  intros Hpen H student topic c Hin.
  apply parse_csv_Ok_rows in H as (_ & Hacc & ->).
  apply expected_preferences_In in Hin as (row & Hrow & Hcase).
  pose proof (accepted_row_lookup _ _ _ _ Hacc Hrow) as (_ & _ & Hperm).
  apply Permutation_one_to in Hperm as [Hpos _].
  rewrite List.Forall_forall in Hpos.
  destruct Hcase as [(str & Hstr & Hne & Hp) | [_ ->]].
  - apply Hpos, specified_values_In. eauto.
  - destruct (specified_values int (preference_cells topics row)) as [|x l] eqn:E.
    + simpl. lia.
    + destruct (default_cost_nonempty penalize_below_n_preferences (x :: l))
        as (mx & Hmx & _ & ->); [discriminate|].
      specialize (Hpos mx Hmx). lia.
Qed.

(** C10.  With a threshold of at least 1, the cost of a topic a
    student left empty is greater than every cost the student
    specified. *)
Theorem default_exceeds_specified
    fields students topics preferences student row topic topic' str c c' :
  1 <= penalize_below_n_preferences ->
  parse_csv int penalize_below_n_preferences fields = Ok (students, topics, preferences) ->
  drop 1 fields !! student = Some row ->
  preference_cells topics row !! topic = Some "" ->
  preference_cells topics row !! topic' = Some str -> str <> "" ->
  In (student, topic, c) preferences ->
  In (student, topic', c') preferences ->
  c' < c.
Proof.
  intros Hpen H Hrow Hempty Hstr Hne Hc Hc'.
  apply parse_csv_Ok_rows in H as (_ & Hacc & ->).
  apply expected_preferences_In in Hc as (r & Hr & Hcase).
  assert (r = row) as -> by congruence. clear Hr.
  apply expected_preferences_In in Hc' as (r & Hr & Hcase').
  assert (r = row) as -> by congruence. clear Hr.
  destruct Hcase as [(s & Hs & Hsne & _) | [_ ->]]; [congruence|].
  destruct Hcase' as [(s & Hs & Hsne & Hp) | [Hs _]]; [|congruence].
  assert (In c' (specified_values int (preference_cells topics row))) as Hin.
  { apply specified_values_In. eauto. }
  destruct (default_cost_nonempty penalize_below_n_preferences
              (specified_values int (preference_cells topics row)))
    as (mx & _ & Hmax & ->).
  { intros E. rewrite E in Hin. destruct Hin. }
  rewrite List.Forall_forall in Hmax. specialize (Hmax c' Hin). lia.
Qed.

End LoaderClaims.

(** * The loader: one triple per student and topic *)

Section Coverage.

Variable int : string -> option Z.
Variable penalize_below_n_preferences : Z.

(** The ranked topics and the topics left empty are all the topics. *)
Lemma topics_partition (cells : list string) :
  all_integers int cells ->
  forall j, Permutation (map fst (specified_at int j cells) ++ unspecified_at j cells)
                        (seq j (length cells)).
Proof.
  induction 1 as [|c cells Hc _ IH]; intros j; simpl; [constructor|].
  destruct (String.eqb c "") eqn:E.
  - rewrite <- Permutation_middle. constructor. apply IH.
  - destruct Hc as [-> | [p Hp]]; [discriminate|].
    rewrite Hp. simpl. constructor. apply IH.
Qed.

Lemma merge_row_keys student (u : list nat) (sp : list (nat * Z)) :
  map fst (merge_row penalize_below_n_preferences student (u, sp)) =
  map (pair student) (map fst sp ++ u).
Proof.
  unfold merge_row. rewrite !map_app, !map_map. f_equal.
  apply map_ext. intros [t c]. reflexivity.
Qed.

Lemma merge_rows_keys topics (rows : list (list string)) :
  Forall (row_accepted int topics) rows ->
  forall i,
  Permutation
    (map fst (merge_rows penalize_below_n_preferences i
                (map (fun row => row_result int (preference_cells topics row)) rows)))
    (list_prod (seq i (length rows)) (range (length topics))).
Proof.
  induction 1 as [|row rows (Hlen & Hint & _) _ IH]; intros i;
    cbn [map merge_rows length seq list_prod]; [constructor|].
  rewrite map_app. apply Permutation_app; [|apply IH].
  unfold row_result. rewrite merge_row_keys. apply Permutation_map.
  rewrite (topics_partition _ Hint 0%nat), preference_cells_length by assumption.
  reflexivity.
Qed.

Lemma preference_keys fields students topics preferences :
  parse_csv int penalize_below_n_preferences fields = Ok (students, topics, preferences) ->
  Permutation (map fst preferences)
              (list_prod (range (length students)) (range (length topics))).
Proof.
  intros H. apply parse_csv_Ok_rows in H as (Hlen & Hacc & ->).
  unfold expected_preferences, range at 1. rewrite Hlen.
  apply merge_rows_keys. assumption.
Qed.

End Coverage.

(** * The cost matrix *)

Lemma np_zeros_shape (n m : nat) : has_shape n m (np_zeros n m).
Proof.
  unfold has_shape, np_zeros. split; [apply length_replicate|].
  apply Forall_replicate, length_replicate.
Qed.

Lemma shape_row n m (cost_matrix : list (list Z)) (s : nat) :
  has_shape n m cost_matrix -> (s < n)%nat ->
  exists row, cost_matrix !! s = Some row /\ length row = m.
Proof.
  intros [Hn Hm] Hs. destruct (lookup_lt_is_Some_2 cost_matrix s) as [row Hrow]; [lia|].
  exists row. split; [assumption|]. rewrite List.Forall_forall in Hm. apply Hm.
  apply list_elem_of_In, list_elem_of_lookup. eauto.
Qed.

Lemma get_cell_in_range n m (cost_matrix : list (list Z)) (s t : nat) :
  has_shape n m cost_matrix -> (s < n)%nat -> (t < m)%nat ->
  exists c, get_cell cost_matrix (s, t) = Ok c.
Proof.
  intros Hshape Hs Ht. destruct (shape_row _ _ _ _ Hshape Hs) as (row & Hrow & Hlen).
  destruct (lookup_lt_is_Some_2 row t) as [c Hc]; [lia|].
  exists c. unfold get_cell. simpl. rewrite (index_lookup _ _ _ Hrow). simpl.
  apply index_lookup. assumption.
Qed.

Lemma set_cell_in_range n m (cost_matrix : list (list Z)) (s t : nat) (c : Z) :
  has_shape n m cost_matrix -> (s < n)%nat -> (t < m)%nat ->
  exists cost_matrix',
    set_cell (s, t, c) cost_matrix = Ok cost_matrix' /\
    has_shape n m cost_matrix' /\
    forall s' t', get_cell cost_matrix' (s', t') =
                  if decide ((s', t') = (s, t)) then Ok c
                  else get_cell cost_matrix (s', t').
Proof.
  intros Hshape Hs Ht. destruct (shape_row _ _ _ _ Hshape Hs) as (row & Hrow & Hlen).
  destruct (lookup_lt_is_Some_2 row t) as [c0 Hc0]; [lia|].
  exists (<[s := <[t := c]> row]> cost_matrix). split_and!.
  - unfold set_cell. rewrite (index_lookup _ _ _ Hrow). simpl.
    rewrite (index_lookup _ _ _ Hc0). reflexivity.
  - destruct Hshape as [Hn Hm]. split; [rewrite length_insert; assumption|].
    apply Forall_insert; [assumption|]. rewrite length_insert. assumption.
  - intros s' t'. unfold get_cell. simpl.
    destruct (decide (s = s')) as [<-|Hne].
    + rewrite (index_lookup _ s (<[t := c]> row))
        by (apply list_lookup_insert_eq; eapply lookup_lt_Some; eauto).
      rewrite (index_lookup _ _ _ Hrow). simpl.
      destruct (decide (t = t')) as [<-|Hne'].
      * rewrite decide_True by reflexivity. apply index_lookup.
        apply list_lookup_insert_eq. lia.
      * rewrite decide_False by congruence. unfold index.
        rewrite list_lookup_insert_ne by assumption. reflexivity.
    + rewrite decide_False by congruence. unfold index at 1 3.
      rewrite list_lookup_insert_ne by assumption. reflexivity.
Qed.

(** Filling the matrix from a list of triples in range: it succeeds;
    a pair with one triple holds that triple's cost. *)
Lemma fill_matrix n m (preferences : list (nat * nat * Z)) :
  forall cost_matrix,
  has_shape n m cost_matrix ->
  Forall (fun st => (st.1 < n)%nat /\ (st.2 < m)%nat) (map fst preferences) ->
  exists cost_matrix',
    for_each preferences set_cell cost_matrix = Ok cost_matrix' /\
    has_shape n m cost_matrix' /\
    (forall s t, ~ In (s, t) (map fst preferences) ->
                 get_cell cost_matrix' (s, t) = get_cell cost_matrix (s, t)) /\
    (List.NoDup (map fst preferences) ->
     forall s t c, In (s, t, c) preferences -> get_cell cost_matrix' (s, t) = Ok c).
Proof.
  induction preferences as [|[[s t] c] preferences IH]; intros M Hshape Hrange.
  - exists M. simpl. split_and!; auto. intros _ s t c [].
  - simpl in Hrange. inversion Hrange as [|? ? [Hs Ht] Hrange']; subst. simpl in Hs, Ht.
    destruct (set_cell_in_range n m M s t c Hshape Hs Ht) as (M1 & Hset & Hshape1 & Hget1).
    destruct (IH M1 Hshape1 Hrange') as (M2 & Hrun & Hshape2 & Hother & Hcells).
    exists M2. cbn [for_each]. rewrite Hset. cbn [bind]. split_and!; auto.
    + intros s' t' Hnotin. simpl in Hnotin.
      rewrite Hother by tauto. rewrite Hget1.
      rewrite decide_False; [reflexivity|]. intros E. apply Hnotin. left.
      symmetry. exact E.
    + intros Hnd s' t' c' Hin. simpl in Hnd.
      inversion Hnd as [|? ? Hnotin Hnd']; subst.
      destruct Hin as [[= <- <- <-] | Hin].
      * rewrite Hother by assumption. rewrite Hget1, decide_True; reflexivity.
      * apply Hcells; assumption.
Qed.

Lemma get_cell_Ok_range n m (cost_matrix : list (list Z)) s t c :
  has_shape n m cost_matrix -> get_cell cost_matrix (s, t) = Ok c ->
  (s < n)%nat /\ (t < m)%nat.
Proof.
  intros Hshape H. unfold get_cell in H. simpl in H.
  apply bind_Ok_inv in H as (row & Hrow & Hc).
  apply index_Ok in Hrow. apply index_Ok in Hc.
  pose proof (lookup_lt_Some _ _ _ Hrow) as Hs.
  destruct Hshape as [Hn Hm]. split; [lia|].
  rewrite List.Forall_forall in Hm.
  rewrite <- (Hm row) by (apply list_elem_of_In, list_elem_of_lookup; eauto).
  eapply lookup_lt_Some; eauto.
Qed.

Lemma set_cell_out_of_range n m (cost_matrix : list (list Z)) (s t : nat) (c : Z) :
  has_shape n m cost_matrix -> ~ ((s < n)%nat /\ (t < m)%nat) ->
  set_cell (s, t, c) cost_matrix = Err IndexError.
Proof.
  intros Hshape Hout. unfold set_cell.
  destruct (le_lt_dec n s) as [Hs|Hs].
  - unfold index at 1. rewrite lookup_ge_None_2; [reflexivity|].
    destruct Hshape as [-> _]. assumption.
  - destruct (shape_row _ _ _ _ Hshape Hs) as (row & Hrow & Hlen).
    rewrite (index_lookup _ _ _ Hrow). cbn [bind].
    unfold index. rewrite lookup_ge_None_2 by lia. reflexivity.
Qed.

Lemma get_cell_zeros (n m s t : nat) :
  (s < n)%nat -> (t < m)%nat -> get_cell (np_zeros n m) (s, t) = Ok 0.
Proof.
  intros Hs Ht. unfold get_cell, np_zeros. simpl.
  rewrite (index_lookup _ _ (replicate m 0)) by (apply lookup_replicate_2; lia).
  cbn [bind]. apply index_lookup, lookup_replicate_2. lia.
Qed.

(** Filling a matrix, whatever the triples. *)
Lemma fill_matrix_any n m (preferences : list (nat * nat * Z)) :
  forall cost_matrix,
  has_shape n m cost_matrix ->
  (forall e, for_each preferences set_cell cost_matrix = Err e -> e = IndexError) /\
  (is_ok (for_each preferences set_cell cost_matrix) = true <->
   Forall (fun p => (p.1.1 < n)%nat /\ (p.1.2 < m)%nat) preferences) /\
  (forall cost_matrix',
     for_each preferences set_cell cost_matrix = Ok cost_matrix' ->
     has_shape n m cost_matrix' /\
     forall s t x, get_cell cost_matrix (s, t) = Ok x ->
       get_cell cost_matrix' (s, t) =
       Ok (fold_left (fun cost '(s', t', c) =>
                        if ((s' =? s) && (t' =? t))%nat then c else cost)
                     preferences x)).
Proof.
  induction preferences as [|[[s' t'] c] preferences IH]; intros M Hshape.
  - simpl. split_and!; [discriminate | split; [constructor | reflexivity] |].
    intros M' [= <-]. auto.
  - cbn [for_each]. rewrite List.Forall_cons_iff. simpl fst. simpl snd.
    destruct (decide ((s' < n)%nat /\ (t' < m)%nat)) as [[Hs Ht]|Hout].
    + destruct (set_cell_in_range n m M s' t' c Hshape Hs Ht)
        as (M1 & Hset & Hshape1 & Hget1).
      rewrite Hset. cbn [bind].
      destruct (IH M1 Hshape1) as (IHe & IHok & IHcells).
      split_and!; [exact IHe | rewrite IHok; tauto |].
      intros M' Hrun. destruct (IHcells M' Hrun) as [Hshape' Hcells].
      split; [assumption|]. intros s t x Hx. cbn [fold_left].
      apply Hcells. rewrite Hget1.
      destruct (decide ((s, t) = (s', t'))) as [[= -> ->]|Hne].
      * rewrite !Nat.eqb_refl. reflexivity.
      * rewrite Hx. f_equal.
        destruct (Nat.eqb_spec s' s) as [->|]; [|reflexivity].
        destruct (Nat.eqb_spec t' t) as [->|]; [congruence | reflexivity].
    + rewrite (set_cell_out_of_range n m M s' t' c Hshape Hout). cbn [bind].
      split_and!.
      * intros e [= <-]. reflexivity.
      * split; [discriminate | tauto].
      * discriminate.
Qed.

Lemma build_cost_matrix_shape students topics preferences cost_matrix :
  build_cost_matrix students topics preferences = Ok cost_matrix ->
  has_shape (length students) (length topics) cost_matrix.
Proof.
  intros Hbuild.
  destruct (fill_matrix_any (length students) (length topics) preferences
              (np_zeros (length students) (length topics)) (np_zeros_shape _ _))
    as (_ & _ & Hcells).
  apply (Hcells cost_matrix Hbuild).
Qed.

(** A cell of the built matrix. *)
Lemma built_cell students topics preferences cost_matrix student topic :
  build_cost_matrix students topics preferences = Ok cost_matrix ->
  (student < length students)%nat -> (topic < length topics)%nat ->
  get_cell cost_matrix (student, topic) = Ok (last_cost preferences student topic).
Proof.
  intros Hbuild Hs Ht.
  destruct (fill_matrix_any (length students) (length topics) preferences
              (np_zeros (length students) (length topics)) (np_zeros_shape _ _))
    as (_ & _ & Hcells).
  destruct (Hcells cost_matrix Hbuild) as [_ Hget].
  apply Hget, get_cell_zeros; assumption.
Qed.

Lemma list_prod_NoDup {A B} (l : list A) (l' : list B) :
  List.NoDup l -> List.NoDup l' -> List.NoDup (list_prod l l').
Proof.
  intros Hl Hl'. induction Hl as [|x l Hx Hl IH]; simpl; [constructor|].
  apply List.NoDup_app.
  - apply Finite.Injective_map_NoDup; [|assumption]. intros y y' [= ->]. reflexivity.
  - assumption.
  - intros [x' y] Hin Hin'. apply in_map_iff in Hin as (y' & [= <- <-] & _).
    apply in_prod_iff in Hin' as [Hin' _]. contradiction.
Qed.

(** * The solver wrapper *)

Lemma io_for_each_lines {A} (g : nat -> io unit) (g' : A -> result line) (l : list A) :
  forall j,
  (forall i x, l !! i = Some x ->
     g (j + i)%nat = match g' x with
                     | Ok ln => ([ln], Ok tt)
                     | Err e => ([], Err e)
                     end) ->
  (io_for_each (seq j (length l)) g).2 = (do _ <- mapM g' l ;; Ok tt) /\
  (forall lines, mapM g' l = Ok lines -> (io_for_each (seq j (length l)) g).1 = lines).
Proof.
  induction l as [|x l IH]; intros j H; cbn [length seq io_for_each mapM].
  - split; [reflexivity|]. intros lines [= <-]. reflexivity.
  - pose proof (H 0%nat x eq_refl) as H0. rewrite Nat.add_0_r in H0. rewrite H0.
    destruct (IH (S j)) as [IH2 IH1].
    { intros i y Hy. rewrite <- (H (S i) y Hy). f_equal. lia. }
    destruct (g' x) as [ln|e]; simpl; [|split; [reflexivity | discriminate]].
    destruct (io_for_each (seq (S j) (length l)) g) as [out r]. simpl in *.
    rewrite IH2. destruct (mapM g' l) as [lines|]; simpl.
    + split; [reflexivity|]. intros ? [= <-]. rewrite (IH1 lines eq_refl). reflexivity.
    + split; [reflexivity | discriminate].
Qed.

Lemma assignment_lines_gets students topics pairs lines :
  assignment_lines students topics pairs = Ok lines ->
  length lines = length pairs /\ forallb is_gets lines = true.
Proof.
  unfold assignment_lines. revert lines.
  induction pairs as [|rc pairs IH]; intros lines H; simpl in H.
  - injection H as <-. auto.
  - apply bind_Ok_inv in H as (ln & Hln & H).
    apply bind_Ok_inv in H as (lines' & Hlines & [= <-]).
    destruct (IH _ Hlines) as [Hlen Hgets]. simpl. rewrite Hlen, Hgets.
    apply bind_Ok_inv in Hln as (sname & _ & Hln).
    apply bind_Ok_inv in Hln as (tname & _ & [= <-]). auto.
Qed.

Lemma assignment_lines_in_range students topics (rows cols : list nat) :
  length rows = length cols ->
  Forall (fun r => (r < length students)%nat) rows ->
  Forall (fun c => (c < length topics)%nat) cols ->
  exists lines, assignment_lines students topics (zip rows cols) = Ok lines.
Proof.
  intros Hlen Hrows. revert cols Hlen.
  induction Hrows as [|r rows Hr _ IH]; intros cols Hlen Hcols.
  - exists []. destruct cols; reflexivity.
  - destruct cols as [|c cols]; [discriminate|].
    inversion Hcols as [|? ? Hc Hcols']; subst.
    destruct (IH cols) as [lines Hlines]; [simpl in Hlen; lia | assumption|].
    destruct (lookup_lt_is_Some_2 students r Hr) as [sname Hs].
    destruct (lookup_lt_is_Some_2 topics c Hc) as [tname Ht].
    exists (Gets sname tname :: lines). unfold assignment_lines in *. simpl.
    rewrite (index_lookup _ _ _ Hs), (index_lookup _ _ _ Ht). simpl.
    rewrite Hlines. reflexivity.
Qed.

Lemma matched_cells_in_range n m (cost_matrix : list (list Z)) (rows cols : list nat) :
  has_shape n m cost_matrix ->
  length rows = length cols ->
  Forall (fun r => (r < n)%nat) rows ->
  Forall (fun c => (c < m)%nat) cols ->
  exists cells, fancy_index cost_matrix rows cols = Ok cells.
Proof.
  intros Hshape Hlen Hrows. unfold fancy_index.
  rewrite (proj2 (Nat.eqb_eq _ _) Hlen). revert cols Hlen.
  induction Hrows as [|r rows Hr _ IH]; intros cols Hlen Hcols.
  - exists []. destruct cols; reflexivity.
  - destruct cols as [|c cols]; [discriminate|].
    inversion Hcols as [|? ? Hc Hcols']; subst.
    destruct (IH cols) as [cells Hcells]; [simpl in Hlen; lia | assumption|].
    destruct (get_cell_in_range n m cost_matrix r c Hshape Hr Hc) as [x Hx].
    exists (x :: cells). simpl. rewrite Hx. simpl. rewrite Hcells. reflexivity.
Qed.

Lemma assignment_lines_of_cells students topics (cost_matrix : list (list Z))
    (pairs : list (nat * nat)) (cells : list Z) :
  has_shape (length students) (length topics) cost_matrix ->
  mapM (get_cell cost_matrix) pairs = Ok cells ->
  exists lines, assignment_lines students topics pairs = Ok lines.
Proof.
  intros Hshape. revert cells.
  induction pairs as [|[r c] pairs IH]; intros cells H; [exists []; reflexivity|].
  simpl in H. apply bind_Ok_inv in H as (x & Hx & H).
  apply bind_Ok_inv in H as (cells' & Hcells & _).
  destruct (IH _ Hcells) as [lines Hlines].
  destruct (get_cell_Ok_range _ _ _ _ _ _ Hshape Hx) as [Hr Hc].
  destruct (lookup_lt_is_Some_2 students r Hr) as [sname Hs].
  destruct (lookup_lt_is_Some_2 topics c Hc) as [tname Ht].
  exists (Gets sname tname :: lines). unfold assignment_lines in *. simpl.
  rewrite (index_lookup _ _ _ Hs), (index_lookup _ _ _ Ht). cbn [bind].
  rewrite Hlines. reflexivity.
Qed.

Section SolverFacts.

Variable linear_sum_assignment : list (list Z) -> result (list nat * list nat).
Variable penalize_below_n_preferences : Z.

(** The loop that prints the assignment. *)
Lemma print_assignment students topics (row_indices col_indices : list nat) :
  length row_indices = length col_indices ->
  let loop :=
    io_for_each (range (length row_indices))
      (fun i =>
         io_do student_index <- lift (index row_indices i) ;;
         io_do topic_index <- lift (index col_indices i) ;;
         io_do sname <- lift (index students student_index) ;;
         io_do tname <- lift (index topics topic_index) ;;
         print (Gets sname tname)) in
  loop.2 = (do _ <- assignment_lines students topics (zip row_indices col_indices) ;;
            Ok tt) /\
  (forall lines,
     assignment_lines students topics (zip row_indices col_indices) = Ok lines ->
     loop.1 = lines).
Proof.
  intros Hlen loop. unfold loop, range, assignment_lines.
  replace (length row_indices) with (length (zip row_indices col_indices))
    by (rewrite length_zip; lia).
  apply io_for_each_lines. intros i [r c] Hi.
  apply lookup_zip_with_Some in Hi as (r' & c' & [= <- <-] & Hr & Hc).
  simpl. rewrite (index_lookup _ _ _ Hr), (index_lookup _ _ _ Hc). simpl.
  destruct (index students r); simpl; [|reflexivity].
  destruct (index topics c); reflexivity.
Qed.

Lemma solve_run students topics preferences cost_matrix row_indices col_indices cells :
  build_cost_matrix students topics preferences = Ok cost_matrix ->
  linear_sum_assignment cost_matrix = Ok (row_indices, col_indices) ->
  fancy_index cost_matrix row_indices col_indices = Ok cells ->
  length row_indices = length col_indices ->
  match assignment_lines students topics (zip row_indices col_indices) with
  | Ok lines =>
      solve_assignment_problem linear_sum_assignment penalize_below_n_preferences
        students topics preferences = (statistics penalize_below_n_preferences students cells ++ lines, Ok tt)
  | Err e =>
      (solve_assignment_problem linear_sum_assignment penalize_below_n_preferences
         students topics preferences).2 = Err e
  end.
Proof.
  intros Hbuild Hsolve Hcells Hlen. unfold solve_assignment_problem.
  rewrite Hbuild. cbn [lift io_bind]. rewrite Hsolve. cbn [io_bind].
  rewrite Hcells. cbn [io_bind print].
  destruct (print_assignment students topics row_indices col_indices Hlen)
    as [Hres Hout].
  cbv zeta in Hres, Hout.
  destruct (io_for_each (range (length row_indices)) _) as [out r].
  simpl in Hres, Hout. unfold statistics.
  destruct (assignment_lines students topics (zip row_indices col_indices))
    as [lines|e]; simpl in Hres; subst r.
  - rewrite (Hout lines eq_refl).
    destruct (np_greater _ _); reflexivity.
  - destruct (np_greater _ _); reflexivity.
Qed.

End SolverFacts.

Section SolverClaims.

Variable linear_sum_assignment : list (list Z) -> result (list nat * list nat).
Variable penalize_below_n_preferences : Z.
Variable int : string -> option Z.

Lemma loop_only_gets students topics (row_indices col_indices : list nat) (l : list nat) :
  forallb is_gets
    (io_for_each l
       (fun i =>
          io_do student_index <- lift (index row_indices i) ;;
          io_do topic_index <- lift (index col_indices i) ;;
          io_do sname <- lift (index students student_index) ;;
          io_do tname <- lift (index topics topic_index) ;;
          print (Gets sname tname))).1 = true.
Proof.
  induction l as [|i l IH]; [reflexivity|]. cbn [io_for_each].
  destruct (io_for_each l _) as [out r]. simpl in IH.
  destruct (index row_indices i) as [r0|]; [|reflexivity].
  destruct (index col_indices i) as [c0|]; [|reflexivity].
  cbn [lift io_bind].
  destruct (index students r0); [|reflexivity].
  destruct (index topics c0); [|reflexivity].
  simpl. exact IH.
Qed.

Lemma statistics_warning students cells :
  existsb is_warning (statistics penalize_below_n_preferences students cells) =
  np_greater (np_divide (py_sum cells) (length students)) penalize_below_n_preferences.
Proof. unfold statistics. simpl. destruct (np_greater _ _); reflexivity. Qed.

Lemma statistics_gets students cells :
  filter is_gets (statistics penalize_below_n_preferences students cells) = [].
Proof. unfold statistics. simpl. destruct (np_greater _ _); reflexivity. Qed.

Lemma gets_not_warning (lines : list line) :
  forallb is_gets lines = true ->
  existsb is_warning lines = false /\ filter is_gets lines = lines.
Proof.
  induction lines as [|ln lines IH]; [auto|]. simpl. intros H.
  apply andb_prop in H as [Hln H]. destruct (IH H) as [IH1 IH2].
  destruct ln; try discriminate. simpl.
  rewrite filter_cons_True by exact I. rewrite IH1, IH2. auto.
Qed.

Lemma np_greater_exceeds (a : float64) (threshold : Z) :
  np_greater a threshold = true <-> exceeds a threshold.
Proof.
  destruct a as [q| |negative]; simpl.
  - rewrite negb_true_iff, <- not_true_iff_false, Qle_bool_iff.
    split; [apply Qnot_le_lt | apply Qlt_not_le].
  - split; [discriminate | contradiction].
  - destruct negative; simpl; split; congruence.
Qed.

Lemma py_sum_foldr (l : list Z) : py_sum l = foldr Z.add 0 l.
Proof. induction l as [|x l IH]; [reflexivity|]. rewrite py_sum_cons, IH. reflexivity. Qed.

(** The cells the wrapper reads for a matching are the costs the list
    of triples gives for the matched pairs. *)
Lemma matched_cells_last_cost students topics preferences cost_matrix
    (pairs : list (nat * nat)) (cells : list Z) :
  build_cost_matrix students topics preferences = Ok cost_matrix ->
  mapM (get_cell cost_matrix) pairs = Ok cells ->
  Forall (fun rc => (rc.1 < length students)%nat /\ (rc.2 < length topics)%nat) pairs /\
  cells = map (fun rc => last_cost preferences rc.1 rc.2) pairs.
Proof.
  intros Hbuild H. pose proof (build_cost_matrix_shape _ _ _ _ Hbuild) as Hshape.
  apply mapM_Ok in H.
  induction H as [|[r c] x pairs cells Hx _ [IH1 IH2]]; [split; [constructor | reflexivity]|].
  destruct (get_cell_Ok_range _ _ _ _ _ _ Hshape Hx) as [Hr Hc].
  split; [constructor; [split; assumption | assumption]|].
  simpl. f_equal; [|assumption].
  rewrite (built_cell _ _ _ _ _ _ Hbuild Hr Hc) in Hx. congruence.
Qed.

Lemma assignment_lines_spec students topics pairs lines :
  assignment_lines students topics pairs = Ok lines ->
  Forall2 (fun rc ln =>
             exists sname tname,
               students !! rc.1 = Some sname /\ topics !! rc.2 = Some tname /\
               ln = Gets sname tname) pairs lines.
Proof.
  unfold assignment_lines. intros H. apply mapM_Ok in H.
  eapply Forall2_impl; [exact H|]. intros rc ln Hln. simpl in Hln.
  apply bind_Ok_inv in Hln as (sname & Hs & Hln).
  apply bind_Ok_inv in Hln as (tname & Ht & [= <-]).
  exists sname, tname. rewrite <- !index_Ok. auto.
Qed.

(** C7.  For every run of the wrapper that ends normally, with costs
    and a threshold in the range where float64 is exact: the total
    cost printed is the sum of the costs that the list of triples
    gives for the matched pairs, the average printed is the float64
    nearest to the total divided by the number of students (nan when
    there is none), a warning line is printed exactly when the average
    is greater than the threshold, and the assignment lines are
    printed in both cases, one per matched pair, in the order of the
    matching. *)
Theorem report_of_solved_instance students topics preferences cost_matrix
    row_indices col_indices out :
  build_cost_matrix students topics preferences = Ok cost_matrix ->
  linear_sum_assignment cost_matrix = Ok (row_indices, col_indices) ->
  length row_indices = length col_indices ->
  exact_costs (length row_indices) preferences ->
  float64_exact penalize_below_n_preferences ->
  solve_assignment_problem linear_sum_assignment penalize_below_n_preferences
    students topics preferences = (out, Ok tt) ->
  let matched := zip row_indices col_indices in
  let total_cost :=
    foldr Z.add 0 (map (fun rc => last_cost preferences rc.1 rc.2) matched) in
  let average_cost :=
    match students with
    | [] => NaN
    | _ :: _ => nearest64 (total_cost # Pos.of_nat (length students))
    end in
  exists lines,
    Forall2 (fun rc ln =>
               exists sname tname,
                 students !! rc.1 = Some sname /\ topics !! rc.2 = Some tname /\
                 ln = Gets sname tname) matched lines /\
    (exceeds average_cost penalize_below_n_preferences ->
     out = [TotalCost total_cost; AverageCost average_cost;
            Warning average_cost penalize_below_n_preferences; SolutionHeader] ++ lines) /\
    (~ exceeds average_cost penalize_below_n_preferences ->
     out = [TotalCost total_cost; AverageCost average_cost; SolutionHeader] ++ lines).
Proof.
  intros Hbuild Hsolve Hlen _ _ H matched total_cost average_cost.
  destruct (fancy_index cost_matrix row_indices col_indices) as [cells|e] eqn:Hcells.
  2:{ unfold solve_assignment_problem in H. rewrite Hbuild in H.
      cbn [lift io_bind] in H. rewrite Hsolve in H. cbn [io_bind] in H.
      rewrite Hcells in H. discriminate. }
  pose proof (solve_run linear_sum_assignment penalize_below_n_preferences
                _ _ _ _ _ _ _ Hbuild Hsolve Hcells Hlen) as Hrun.
  destruct (assignment_lines students topics (zip row_indices col_indices))
    as [lines|e] eqn:Hlines.
  2:{ rewrite H in Hrun. discriminate. }
  assert (out = statistics penalize_below_n_preferences students cells ++ lines)
    as -> by congruence.
  unfold fancy_index in Hcells. rewrite (proj2 (Nat.eqb_eq _ _) Hlen) in Hcells.
  destruct (matched_cells_last_cost _ _ _ _ _ _ Hbuild Hcells) as [Hrange ->].
  fold matched in Hrange |- *.
  assert (np_divide total_cost (length students) = average_cost) as Haverage.
  { unfold average_cost. destruct students as [|sname students]; [|reflexivity].
    destruct matched as [|[r c] pairs]; [reflexivity|].
    inversion Hrange as [|? ? [Hr _] _]. simpl in Hr. lia. }
  exists lines. split; [apply assignment_lines_spec; assumption|].
  unfold statistics. rewrite py_sum_foldr. fold total_cost. rewrite Haverage.
  pose proof (np_greater_exceeds average_cost penalize_below_n_preferences) as Hgt.
  destruct (np_greater average_cost penalize_below_n_preferences).
  - split; [reflexivity|]. intros Hnot. exfalso. apply Hnot, Hgt. reflexivity.
  - split; [|reflexivity]. intros Hex. apply Hgt in Hex. discriminate.
Qed.

End SolverClaims.

Section Pipeline.

Variable linear_sum_assignment : list (list Z) -> result (list nat * list nat).
Variable penalize_below_n_preferences : Z.
Variable int : string -> option Z.

Lemma main_Err fields e :
  parse_csv int penalize_below_n_preferences fields = Err e ->
  main linear_sum_assignment penalize_below_n_preferences int fields = ([], Err e).
Proof. intros H. unfold main. rewrite H. reflexivity. Qed.

Lemma main_Ok fields students topics preferences :
  parse_csv int penalize_below_n_preferences fields = Ok (students, topics, preferences) ->
  main linear_sum_assignment penalize_below_n_preferences int fields =
  solve_assignment_problem linear_sum_assignment penalize_below_n_preferences
    students topics preferences.
Proof.
  intros H. unfold main. rewrite H. cbn [lift io_bind].
  destruct (solve_assignment_problem _ _ _ _ _). reflexivity.
Qed.

(** The keys of the preference list, and the matrix built from it. *)
Lemma accepted_cost_matrix fields students topics preferences :
  parse_csv int penalize_below_n_preferences fields = Ok (students, topics, preferences) ->
  Permutation (map fst preferences)
              (list_prod (range (length students)) (range (length topics))) /\
  exists cost_matrix,
    build_cost_matrix students topics preferences = Ok cost_matrix /\
    has_shape (length students) (length topics) cost_matrix /\
    forall student topic c,
      In (student, topic, c) preferences <->
      get_cell cost_matrix (student, topic) = Ok c.
Proof.
  intros H. pose proof (preference_keys _ _ _ _ _ _ H) as Hperm.
  split; [assumption|].
  assert (forall s t, In (s, t) (map fst preferences) <->
                      (s < length students)%nat /\ (t < length topics)%nat) as Hkeys.
  { intros s t. split.
    - intros Hin. apply (Permutation_in _ Hperm), in_prod_iff in Hin as [Hs Ht].
      unfold range in *. apply in_seq in Hs. apply in_seq in Ht. lia.
    - intros [Hs Ht]. apply (Permutation_in _ (Permutation_sym Hperm)), in_prod_iff.
      unfold range. split; apply in_seq; lia. }
  assert (List.NoDup (map fst preferences)) as Hnd.
  { eapply Permutation_NoDup; [symmetry; exact Hperm|].
    apply list_prod_NoDup; apply seq_NoDup. }
  destruct (fill_matrix (length students) (length topics) preferences
              (np_zeros (length students) (length topics)))
    as (M & Hrun & Hshape & _ & Hcells).
  { apply np_zeros_shape. }
  { rewrite List.Forall_forall. intros [s t] Hin. apply Hkeys. assumption. }
  exists M. split_and!; [exact Hrun | exact Hshape |].
  intros s t c. split; [apply Hcells; assumption|].
  intros Hget. destruct (get_cell_Ok_range _ _ _ _ _ _ Hshape Hget) as [Hs Ht].
  assert (In (s, t) (map fst preferences)) as Hin by (apply Hkeys; auto).
  apply in_map_iff in Hin as ([[s' t'] c'] & [= -> ->] & Hin).
  rewrite (Hcells Hnd _ _ _ Hin) in Hget. injection Hget as <-. assumption.
Qed.



(** C5, as the code has it.  The program has no check of its own that
    there are at least as many topics as students.  For every accepted
    table whose costs and threshold are in the range where float64 is
    exact, the cost matrix is built; the run then ends with an
    exception only if the matching routine raises one, and nothing is
    printed; when the routine returns a matching in range, the run
    ends normally and prints the statistics and one assignment line
    per matched pair, so at most as many lines as there are topics
    when the matched topics are distinct. *)
Theorem topic_count_not_checked fields students topics preferences :
  parse_csv int penalize_below_n_preferences fields = Ok (students, topics, preferences) ->
  Forall (fun p => float64_exact p.2) preferences ->
  float64_exact penalize_below_n_preferences ->
  exists cost_matrix,
    build_cost_matrix students topics preferences = Ok cost_matrix /\
    (forall e,
       linear_sum_assignment cost_matrix = Err e ->
       main linear_sum_assignment penalize_below_n_preferences int fields =
       ([], Err e)) /\
    (forall row_indices col_indices,
       linear_sum_assignment cost_matrix = Ok (row_indices, col_indices) ->
       length row_indices = length col_indices ->
       Forall (fun r => (r < length students)%nat) row_indices ->
       Forall (fun c => (c < length topics)%nat) col_indices ->
       exact_costs (length row_indices) preferences ->
       exists cells lines,
         main linear_sum_assignment penalize_below_n_preferences int fields =
         (statistics penalize_below_n_preferences students cells ++ lines, Ok tt) /\
         assignment_lines students topics (zip row_indices col_indices) = Ok lines /\
         length lines = length row_indices /\
         (List.NoDup col_indices -> (length lines <= length topics)%nat)).
Proof.
  intros H _ _.
  destruct (accepted_cost_matrix _ _ _ _ H)
    as (_ & M & Hbuild & Hshape & _).
  exists M. split; [exact Hbuild|]. rewrite (main_Ok _ _ _ _ H). split.
  - intros e He. unfold solve_assignment_problem.
    rewrite Hbuild. cbn [lift io_bind]. rewrite He. reflexivity.
  - intros rows cols Hsolve Hlen Hrows Hcols _.
    destruct (matched_cells_in_range _ _ M rows cols Hshape Hlen Hrows Hcols)
      as [cells Hcells].
    destruct (assignment_lines_in_range students topics rows cols Hlen Hrows Hcols)
      as [lines Hlines].
    pose proof (solve_run linear_sum_assignment penalize_below_n_preferences
                  _ _ _ _ _ _ _ Hbuild Hsolve Hcells Hlen) as Hrun.
    rewrite Hlines in Hrun. exists cells, lines.
    destruct (assignment_lines_gets _ _ _ _ Hlines) as [Hll _].
    rewrite length_zip in Hll.
    split_and!; [exact Hrun | exact Hlines | lia |].
    intros Hnd. rewrite Hll, <- Hlen, Nat.min_id, Hlen.
    replace (length topics) with (length (seq 0 (length topics)))
      by apply length_seq.
    apply NoDup_incl_length; [assumption|].
    intros c Hc. rewrite List.Forall_forall in Hcols. apply in_seq.
    specialize (Hcols c Hc). lia.
Qed.

End Pipeline.

(** * The loader: validation *)

Section Validation.

Variable int : string -> option Z.
Variable penalize_below_n_preferences : Z.

Lemma accepted_not_empty topics row : row_accepted int topics row -> row <> [].
Proof. intros (Hlen & _) ->. simpl in Hlen. lia. Qed.

Lemma parse_csv_is_ok header rows :
  is_ok (parse_csv int penalize_below_n_preferences (header :: rows)) = true <->
  Forall (row_accepted int (drop 1 header)) rows.
Proof.
  split.
  - intros H. apply is_ok_true in H as ([[students topics] preferences] & H).
    apply parse_csv_Ok_iff in H as (header' & rows' & [= <- <-] & -> & _ & Hacc & _).
    exact Hacc.
  - intros Hacc. destruct (students_exist rows) as [students Hst].
    { eapply List.Forall_impl; [|exact Hacc]. apply accepted_not_empty. }
    apply is_ok_true. eexists. apply parse_csv_Ok_iff.
    exists header, rows. split_and!; eauto.
Qed.

Lemma specified_values_Permutation (cells cells' : list string) :
  Permutation cells cells' ->
  Permutation (specified_values int cells) (specified_values int cells').
Proof.
  induction 1 as [|c l l' _ IH|c c' l|l l' l'' _ IH1 _ IH2].
  - constructor.
  - rewrite !specified_values_cons. apply Permutation_app_head. exact IH.
  - rewrite !specified_values_cons. apply Permutation_app_swap_app.
  - etransitivity; eassumption.
Qed.

Lemma row_accepted_Permutation topics row row' :
  length row = length row' ->
  Permutation (preference_cells topics row) (preference_cells topics row') ->
  row_accepted int topics row -> row_accepted int topics row'.
Proof.
  intros Hlen Hperm (Hl & Hint & Hrank). split_and!.
  - lia.
  - eapply Permutation_Forall; eassumption.
  - pose proof (specified_values_Permutation _ _ Hperm) as Hvalues.
    rewrite <- (Permutation_length Hvalues), <- Hvalues. exact Hrank.
Qed.

(** C8.  Whether the loader accepts a table depends, for each row,
    only on the values in the row's preference cells, not on the
    columns they stand in: rearranging the preference cells within
    each row changes neither acceptance nor rejection. *)
Theorem validation_by_value header rows rows' :
  Forall2 (fun row row' =>
             length row = length row' /\
             Permutation (preference_cells (drop 1 header) row)
                         (preference_cells (drop 1 header) row')) rows rows' ->
  is_ok (parse_csv int penalize_below_n_preferences (header :: rows)) =
  is_ok (parse_csv int penalize_below_n_preferences (header :: rows')).
Proof.
  intros H. apply eq_true_iff_eq. rewrite !parse_csv_is_ok.
  induction H as [|row row' rows rows' [Hlen Hperm] _ IH].
  - split; constructor.
  - rewrite !List.Forall_cons_iff, IH. split; intros [Hrow Hrows]; split; auto.
    + eapply row_accepted_Permutation; eauto.
    + eapply row_accepted_Permutation; [| |exact Hrow]; [lia | symmetry; assumption].
Qed.

Lemma readable_not_empty topics row : row_readable int topics row -> row <> [].
Proof. intros (Hlen & _) ->. simpl in Hlen. lia. Qed.

Lemma parse_csv_readable header rows students :
  Forall (row_readable int (drop 1 header)) rows ->
  Forall2 (fun row sname => row !! 0%nat = Some sname) rows students ->
  parse_csv int penalize_below_n_preferences (header :: rows) =
  (do _ <- mapM check_row
             (zip students
                (map (fun row => row_result int (preference_cells (drop 1 header) row))
                     rows)) ;;
   Ok (students, drop 1 header,
       expected_preferences int penalize_below_n_preferences (drop 1 header) rows)).
Proof.
  intros Hread Hst. rewrite parse_csv_rows_eq. unfold parse_csv_rows.
  change (index (header :: rows) 0) with (Ok (A:=list string) header).
  change (drop 1 (header :: rows)) with rows. cbn [bind].
  pose proof (Forall2_length _ _ _ Hst) as Hlen.
  rewrite (proj2 (students_Ok rows students) Hst). cbn [bind].
  rewrite rows_read_readable by auto. reflexivity.
Qed.

(** C2.  When the reading loops have passed (every row long enough,
    every non-empty cell an integer of at least 1, no value twice in a
    row): the loader fails if and only if some student's specified
    values do not sum to k(k+1)/2, k being their number; the failure is
    the "not a sequence" error for the first such student; and the
    loader accepts exactly when every student's specified values are
    1, ..., k in some order. *)
Theorem sequence_check header rows :
  let topics := drop 1 header in
  Forall (row_readable int topics) rows ->
  ((exists e, parse_csv int penalize_below_n_preferences (header :: rows) = Err e) <->
   Exists (fun row => ~ sum_test int topics row) rows) /\
  (forall e,
     parse_csv int penalize_below_n_preferences (header :: rows) = Err e ->
     classify e = InvalidPreferenceError /\
     exists student row sname,
       rows !! student = Some row /\ row !! 0%nat = Some sname /\
       ~ sum_test int topics row /\
       (forall j row', (j < student)%nat -> rows !! j = Some row' ->
                       sum_test int topics row') /\
       e = ValueError (NotSequence sname)) /\
  (is_ok (parse_csv int penalize_below_n_preferences (header :: rows)) = true <->
   Forall (fun row =>
             let values := specified_values int (preference_cells topics row) in
             Permutation values (one_to (length values))) rows).
Proof.
  intros topics Hread.
  assert (is_ok (parse_csv int penalize_below_n_preferences (header :: rows)) = true <->
          Forall (sum_test int topics) rows) as Hok.
  { rewrite parse_csv_is_ok. fold topics. rewrite !List.Forall_forall in *.
    split; intros H row Hrow.
    - apply row_accepted_iff. auto.
    - apply row_accepted_iff. auto. }
  assert (forall e,
     parse_csv int penalize_below_n_preferences (header :: rows) = Err e ->
     classify e = InvalidPreferenceError /\
     exists student row sname,
       rows !! student = Some row /\ row !! 0%nat = Some sname /\
       ~ sum_test int topics row /\
       (forall j row', (j < student)%nat -> rows !! j = Some row' ->
                       sum_test int topics row') /\
       e = ValueError (NotSequence sname)) as Herr.
  { intros e He. destruct (students_exist rows) as [students Hst].
    { eapply List.Forall_impl; [|exact Hread]. apply readable_not_empty. }
    rewrite (parse_csv_readable header rows students Hread Hst) in He.
    apply bind_Err_inv in He as [He | (? & _ & [=])].
    apply mapM_Err in He as (student & [sname r] & Hz & Hcheck & Hbefore).
    apply lookup_zip_with_Some in Hz as (? & ? & [= <- <-] & Hname & Hr).
    rewrite list_lookup_fmap in Hr.
    destruct (rows !! student) as [row|] eqn:Hrow; [|discriminate].
    injection Hr as <-. rewrite check_row_result in Hcheck.
    destruct (decide _) as [|Hsum]; [discriminate|]. injection Hcheck as <-.
    split; [reflexivity|]. exists student, row, sname. split_and!; auto.
    - destruct (Forall2_lookup_l _ _ _ _ _ Hst Hrow) as (sname' & Hs & Hs').
      congruence.
    - intros j row' Hj Hrow'.
      destruct (Forall2_lookup_l _ _ _ _ _ Hst Hrow') as (sj & Hsj & _).
      specialize (Hbefore j (sj, row_result int (preference_cells topics row')) Hj).
      rewrite check_row_result in Hbefore.
      destruct (decide _) as [Hs|]; [exact Hs|].
      discriminate Hbefore.
      apply lookup_zip_with_Some. exists sj, (row_result int (preference_cells topics row')).
      split_and!; auto. rewrite list_lookup_fmap, Hrow'. reflexivity. }
  split_and!.
  - split.
    + intros [e He]. destruct (Herr e He) as (_ & student & row & sname & Hrow & _ & Hsum & _).
      apply List.Exists_exists. exists row. split; [|assumption].
      apply list_elem_of_In, list_elem_of_lookup. eauto.
    + intros Hex.
      assert (~ Forall (sum_test int topics) rows) as Hnot.
      { intros E. apply List.Exists_exists in Hex as (row & Hrow & Hsum).
        rewrite List.Forall_forall in E. apply Hsum, E, Hrow. }
      rewrite <- Hok in Hnot.
      destruct (parse_csv int penalize_below_n_preferences (header :: rows)) as [?|e];
        [exfalso; apply Hnot; reflexivity | eauto].
  - exact Herr.
  - rewrite parse_csv_is_ok. fold topics. rewrite !List.Forall_forall in *.
    split; intros H row Hrow.
    + apply (H row Hrow).
    + destruct (Hread row Hrow) as (Hlen & Hint & _).
      split_and!; [exact Hlen | exact Hint | exact (H row Hrow)].
Qed.

End Validation.

Section Rejection.

Variable int : string -> option Z.
Variable penalize_below_n_preferences : Z.

Lemma preference_cells_lookup topics (row : list string) topic :
  (topic < length topics)%nat ->
  preference_cells topics row !! topic = row !! (topic + 1)%nat.
Proof.
  intros H. unfold preference_cells. rewrite lookup_take_lt by lia.
  rewrite lookup_drop. f_equal. lia.
Qed.

Lemma NoDup_snd_inj {A} (l : list (A * Z)) (a b : A) (p : Z) :
  List.NoDup (map snd l) -> In (a, p) l -> In (b, p) l -> a = b.
Proof.
  induction l as [|[x q] l IH]; simpl; [intros _ []|].
  intros Hnd Ha Hb. inversion Hnd as [|? ? Hnotin Hnd']; subst.
  destruct Ha as [Ha | Ha], Hb as [Hb | Hb].
  - congruence.
  - injection Ha as -> ->. exfalso. apply Hnotin, in_map_iff. exists (b, p). auto.
  - injection Hb as -> ->. exfalso. apply Hnotin, in_map_iff. exists (a, p). auto.
  - auto.
Qed.

Lemma not_ok_false {A} (m : result A) : ~ is_ok m = true -> is_ok m = false.
Proof. destruct m; simpl; congruence. Qed.

(** C3, as the code has it.  A non-empty preference cell that is the
    integer p, with p < 1 or with p the value of an earlier cell of
    the same row, makes the loader fail; when the reading loops get to
    the cell, the failure is the error raised for that cell ("less
    than one", or "not unique"), both invalid-preference errors.
    Rows do not constrain one another: tables accepted one by one are
    accepted together, whatever values they share. *)
Theorem invalid_preference_rejected header rows :
  let topics := drop 1 header in
  (forall student topic row c p,
     rows !! student = Some row ->
     (topic < length topics)%nat ->
     row !! (topic + 1)%nat = Some c -> c <> "" -> int c = Some p ->
     (p < 1 \/
      exists topic' c', (topic' < topic)%nat /\ row !! (topic' + 1)%nat = Some c' /\
                        c' <> "" /\ int c' = Some p) ->
     is_ok (parse_csv int penalize_below_n_preferences (header :: rows)) = false /\
     (reaches int topics rows student topic ->
      forall sname tname,
        row !! 0%nat = Some sname -> topics !! topic = Some tname ->
        parse_csv int penalize_below_n_preferences (header :: rows) =
        Err (ValueError (if p <? 1 then LessThanOne p sname tname
                         else NotUnique p sname tname)))) /\
  (forall rows',
     is_ok (parse_csv int penalize_below_n_preferences (header :: rows)) = true ->
     is_ok (parse_csv int penalize_below_n_preferences (header :: rows')) = true ->
     is_ok (parse_csv int penalize_below_n_preferences (header :: rows ++ rows')) = true).
Proof.
  intros topics. split.
  - intros student topic row c p Hrow Htopic Hc Hne Hp Hbad. split.
    + apply not_ok_false. intros Hok. apply parse_csv_is_ok in Hok. fold topics in Hok.
      pose proof (accepted_row_lookup _ _ _ _ _ Hok Hrow) as (_ & _ & Hperm).
      apply Permutation_one_to in Hperm as [Hpos Hnd].
      assert (In (topic, p) (specified_at int 0 (preference_cells topics row))) as Hin.
      { apply specified_at_In. split; [lia|]. exists c.
        rewrite Nat.sub_0_r, preference_cells_lookup by assumption. auto. }
      destruct Hbad as [Hlt | (topic' & c' & Hlt & Hc' & Hne' & Hp')].
      * rewrite List.Forall_forall in Hpos.
        assert (1 <= p); [|lia]. apply Hpos. unfold specified_values.
        apply in_map_iff. exists (topic, p). auto.
      * assert (In (topic', p) (specified_at int 0 (preference_cells topics row)))
          as Hin'.
        { apply specified_at_In. split; [lia|]. exists c'.
          rewrite Nat.sub_0_r, preference_cells_lookup by lia. auto. }
        pose proof (NoDup_snd_inj _ _ _ _ Hnd Hin Hin'). lia.
    + intros Hreach sname tname Hname Htname.
      apply (parse_csv_first_error int penalize_below_n_preferences
               header rows student topic row sname); auto.
      unfold row_cell. rewrite (index_lookup _ _ _ Hc). cbn [bind].
      destruct (p <? 1) eqn:Hlt.
      * apply Z.ltb_lt in Hlt. apply cell_step_less_than_one; auto.
      * apply Z.ltb_ge in Hlt.
        destruct Hbad as [? | (topic' & c' & Hlt' & Hc' & Hne' & Hp')]; [lia|].
        apply cell_step_not_unique; auto.
        change (In p (specified_values int (take topic (drop 1 row)))).
        apply specified_values_In. exists topic', c'. split_and!; auto.
        rewrite lookup_take_lt, lookup_drop by lia.
        rewrite <- Hc'. f_equal. lia.
  - intros rows' H H'. rewrite parse_csv_is_ok in *.
    apply Forall_app. auto.
Qed.

End Rejection.

Section Malformed.

Variable linear_sum_assignment : list (list Z) -> result (list nat * list nat).
Variable penalize_below_n_preferences : Z.
Variable int : string -> option Z.

Lemma students_Err (rows : list (list string)) :
  In [] rows -> mapM (fun row : list string => index row 0%nat) rows = Err IndexError.
Proof.
  induction rows as [|row rows IH]; simpl; [intros []|].
  intros [-> | H]; [reflexivity|].
  destruct row as [|sname row]; [reflexivity|].
  change (index (sname :: row) 0) with (Ok (A:=string) sname). cbn [bind].
  rewrite (IH H). reflexivity.
Qed.

Lemma preference_cells_app topics (row extra : list string) :
  (length topics + 1 <= length row)%nat ->
  preference_cells topics (row ++ extra) = preference_cells topics row.
Proof.
  intros H. unfold preference_cells.
  rewrite drop_app_le by lia. apply take_app_le. rewrite length_drop. lia.
Qed.

Lemma row_accepted_app topics (row extra : list string) :
  row_accepted int topics row -> row_accepted int topics (row ++ extra).
Proof.
  intros (Hlen & Hint & Hperm). unfold row_accepted.
  rewrite preference_cells_app by assumption.
  split_and!; auto. rewrite length_app. lia.
Qed.

(** C6, as the code has it.  An empty file, an empty data row, and a
    data row the reading loops get to the end of before the header's
    last topic, make the loader fail with [IndexError]; a data row
    shorter than the header always makes it fail.  A non-empty cell
    of a data row under a topic that is not an integer always makes
    it fail, with the error of [int] when the reading loops get to
    the cell.  Cells added at the end of the data rows of an accepted
    table are ignored: the table is accepted with the same result.
    Whenever the loader fails, the program prints nothing and ends
    with the loader's error, whatever the matching routine. *)
Theorem malformed_input header rows :
  let topics := drop 1 header in
  parse_csv int penalize_below_n_preferences [] = Err IndexError /\
  (In [] rows ->
   parse_csv int penalize_below_n_preferences (header :: rows) = Err IndexError) /\
  (forall row,
     In row rows -> (length row < length header)%nat ->
     is_ok (parse_csv int penalize_below_n_preferences (header :: rows)) = false) /\
  (forall student topic row,
     rows !! student = Some row -> length row = (topic + 1)%nat ->
     reaches int topics rows student topic ->
     parse_csv int penalize_below_n_preferences (header :: rows) = Err IndexError) /\
  (forall student topic row c,
     rows !! student = Some row -> (topic < length topics)%nat ->
     row !! (topic + 1)%nat = Some c -> c <> "" -> int c = None ->
     is_ok (parse_csv int penalize_below_n_preferences (header :: rows)) = false /\
     (reaches int topics rows student topic ->
      parse_csv int penalize_below_n_preferences (header :: rows) =
      Err (ValueError (InvalidLiteral c)))) /\
  (forall rows' result,
     Forall2 (fun row row' => exists extra, row' = row ++ extra) rows rows' ->
     parse_csv int penalize_below_n_preferences (header :: rows) = Ok result ->
     parse_csv int penalize_below_n_preferences (header :: rows') = Ok result) /\
  (forall fields e,
     parse_csv int penalize_below_n_preferences fields = Err e ->
     main linear_sum_assignment penalize_below_n_preferences int fields = ([], Err e)).
Proof.
  intros topics. split_and!.
  - reflexivity.
  - intros Hin. rewrite parse_csv_rows_eq. unfold parse_csv_rows.
    change (index (header :: rows) 0) with (Ok (A:=list string) header).
    change (drop 1 (header :: rows)) with rows. cbn [bind].
    rewrite (students_Err rows Hin). reflexivity.
  - intros row Hin Hshort. apply not_ok_false. intros Hok.
    apply parse_csv_is_ok in Hok. rewrite List.Forall_forall in Hok.
    destruct (Hok row Hin) as (Hlen & _).
    destruct header; simpl in *; [lia|]. rewrite drop_0 in Hlen. lia.
  - intros student topic row Hrow Hlen Hreach.
    pose proof Hreach as (Hne & _).
    rewrite List.Forall_forall in Hne.
    destruct row as [|sname row'] eqn:E.
    { exfalso. apply (Hne []); [|reflexivity].
      apply list_elem_of_In, list_elem_of_lookup. eauto. }
    rewrite <- E in *.
    apply (parse_csv_first_error int penalize_below_n_preferences
             header rows student topic row sname); auto.
    + rewrite E. reflexivity.
    + unfold row_cell, index. rewrite lookup_ge_None_2 by lia. reflexivity.
  - intros student topic row c Hrow Htopic Hc Hne Hint. split.
    + apply not_ok_false. intros Hok. apply parse_csv_is_ok in Hok. fold topics in Hok.
      pose proof (accepted_row_lookup _ _ _ _ _ Hok Hrow) as (_ & Hall & _).
      unfold all_integers in Hall. rewrite List.Forall_forall in Hall.
      destruct (Hall c) as [-> | [p Hp]]; [|congruence|congruence].
      apply list_elem_of_In, list_elem_of_lookup. exists topic.
      rewrite preference_cells_lookup by assumption. assumption.
    + intros Hreach. pose proof Hreach as (Hnempty & _).
      rewrite List.Forall_forall in Hnempty.
      destruct row as [|sname row'] eqn:E; [discriminate|]. rewrite <- E in *.
      apply (parse_csv_first_error int penalize_below_n_preferences
               header rows student topic row sname); auto.
      * rewrite E. reflexivity.
      * unfold row_cell. rewrite (index_lookup _ _ _ Hc). cbn [bind].
        apply cell_step_literal; assumption.
  - intros rows' [[students topics'] preferences] Hext H.
    apply parse_csv_Ok_iff in H as (h & r & [= <- <-] & -> & Hst & Hacc & ->).
    apply parse_csv_Ok_iff. exists header, rows'.
    assert (Forall2 (fun row' sname => row' !! 0%nat = Some sname) rows' students /\
            Forall (row_accepted int topics) rows' /\
            map (fun row => row_result int (preference_cells topics row)) rows' =
            map (fun row => row_result int (preference_cells topics row)) rows)
      as (Hst' & Hacc' & Hres).
    { clear - Hext Hst Hacc. revert students Hst.
      induction Hext as [|row row' rows rows' [extra ->] _ IH]; intros students Hst.
      - inversion Hst; subst. split_and!; constructor.
      - inversion Hst as [|? sname ? students' Hname Hst']; subst.
        inversion Hacc as [|? ? Hrow Hacc']; subst.
        destruct (IH Hacc' _ Hst') as (IH1 & IH2 & IH3).
        split_and!.
        + constructor; [|assumption]. apply lookup_app_l_Some. assumption.
        + constructor; [|assumption]. apply row_accepted_app. assumption.
        + simpl. rewrite IH3, preference_cells_app; [reflexivity|].
          destruct Hrow as [Hlen _]. exact Hlen. }
    split_and!; auto. unfold expected_preferences. fold topics. rewrite Hres.
    reflexivity.
  - intros fields e. apply main_Err.
Qed.

End Malformed.

(** * Examples *)

Example example_loaded :
  parse_csv py_int 3 example_fields =
  Ok (example_students, example_topics, example_preferences).
Proof. reflexivity. Qed.

Example example_solved :
  main brute_force_assignment 3 py_int example_fields =
  ([TotalCost 3; AverageCost (Finite 1); SolutionHeader;
    Gets "s1" "A"; Gets "s2" "B"; Gets "s3" "C"], Ok tt).
Proof. vm_compute. reflexivity. Qed.

(** One student and threshold 0: the average 1 is greater than the
    threshold, and the warning is printed before the solution. *)
Example example_warning :
  main brute_force_assignment 0 py_int [["X"; "A"]; ["s1"; "1"]] =
  ([TotalCost 1; AverageCost (Finite 1); Warning (Finite 1) 0; SolutionHeader;
    Gets "s1" "A"], Ok tt).
Proof. vm_compute. reflexivity. Qed.

(** A total of 1 over three students: the average is the float64
    nearest to 1/3, which is 6004799503160661 / 2^54. *)
Example average_rounded :
  np_divide 1 3 = Finite (6004799503160661 # 18014398509481984).
Proof. vm_compute. reflexivity. Qed.

(** Rounding to the nearest float64: ties go to the even neighbour,
    and beyond the largest float64 the result is the infinity. *)
Example nearest64_rounds :
  nearest64 (inject_Z (2 ^ 53 + 1)) = Finite (inject_Z (2 ^ 53)) /\
  nearest64 (inject_Z (2 ^ 53 + 3)) = Finite (inject_Z (2 ^ 53 + 4)) /\
  nearest64 (1 # 10) = Finite (3602879701896397 # 36028797018963968) /\
  nearest64 (inject_Z (2 ^ 1024 - 2 ^ 970 - 1)) = Finite (inject_Z (2 ^ 1024 - 2 ^ 971)) /\
  nearest64 (inject_Z (2 ^ 1024 - 2 ^ 970)) = Infinity false.
Proof. vm_compute. repeat split. Qed.

(** Specified values 1 and 3 are not a ranking. *)
Example gap_rejected :
  parse_csv py_int 3 [["X"; "A"; "B"; "C"]; ["s3"; "3"; ""; "1"]] =
  Err (ValueError (NotSequence "s3")).
Proof. reflexivity. Qed.

Example zero_rejected :
  parse_csv py_int 3 [["X"; "A"]; ["s1"; "0"]] =
  Err (ValueError (LessThanOne 0 "s1" "A")).
Proof. reflexivity. Qed.

Ltac solve_nodup :=
  repeat (apply List.NoDup_cons; [simpl; lia|]);
  apply List.NoDup_nil.

Ltac evaluate_list :=
  match goal with
  | |- Forall _ ?l => let v := eval vm_compute in l in change l with v
  | |- List.NoDup ?l => let v := eval vm_compute in l in change l with v
  end.

Ltac solve_cells :=
  unfold cells_readable, all_integers; split_and!;
  [ evaluate_list;
    repeat (apply List.Forall_cons;
            [first [left; reflexivity | right; eexists; vm_compute; reflexivity]|]);
    apply List.Forall_nil
  | evaluate_list; repeat (apply List.Forall_cons; [lia|]); apply List.Forall_nil
  | evaluate_list; solve_nodup ].

Ltac solve_readable :=
  repeat (apply List.Forall_cons; [split; [simpl; lia | solve_cells]|]);
  apply List.Forall_nil.

Lemma unspecified_topics_get_default_cost_witness :
  let cells := preference_cells example_topics ["s2"; ""; "1"; ""] in
  let values := specified_values py_int cells in
  (values <> [] ->
   exists mx, In mx values /\ Forall (fun v => v <= mx) values /\
     forall topic, cells !! topic = Some "" ->
     forall c, In (1%nat, topic, c) example_preferences <-> c = mx + 3) /\
  (values = [] ->
   forall topic, (topic < length example_topics)%nat ->
   forall c, In (1%nat, topic, c) example_preferences <-> c = 3 + 1).
Proof.
  apply (unspecified_topics_get_default_cost py_int 3 example_fields
           example_students example_topics example_preferences 1
           ["s2"; ""; "1"; ""]); reflexivity.
Defined.

Lemma costs_positive_witness :
  0 <= 3 /\
  forall student topic c, In (student, topic, c) example_preferences -> 1 <= c.
Proof.
  split; [lia|].
  apply (costs_positive py_int 3 example_fields example_students example_topics
           example_preferences); [lia | reflexivity].
Defined.

(** With a negative threshold a cost can be 0. *)
Lemma negative_threshold_cost :
  parse_csv py_int (-1) [["X"; "A"]; ["s1"; ""]] = Ok (["s1"], ["A"], [(0%nat, 0%nat, 0)]) /\
  ~ (forall student topic c, In (student, topic, c) [(0%nat, 0%nat, 0)] -> 1 <= c).
Proof.
  split; [reflexivity|]. intros H.
  specialize (H 0%nat 0%nat 0 (or_introl eq_refl)). lia.
Qed.

Lemma default_exceeds_specified_witness :
  In (1%nat, 0%nat, 4) example_preferences /\
  In (1%nat, 1%nat, 1) example_preferences /\
  1 < 4.
Proof.
  split; [simpl; tauto|]. split; [simpl; tauto|].
  apply (default_exceeds_specified py_int 3 example_fields example_students
           example_topics example_preferences 1 ["s2"; ""; "1"; ""] 0 1 "1" 4 1).
  - lia.
  - reflexivity.
  - reflexivity.
  - reflexivity.
  - reflexivity.
  - discriminate.
  - simpl. tauto.
  - simpl. tauto.
Defined.

Lemma sequence_check_witness :
  let header := ["X"; "A"; "B"] in
  let rows := [["s1"; "1"; "3"]] in
  let topics := drop 1 header in
  ((exists e, parse_csv py_int 3 (header :: rows) = Err e) <->
   Exists (fun row => ~ sum_test py_int topics row) rows) /\
  (forall e,
     parse_csv py_int 3 (header :: rows) = Err e ->
     classify e = InvalidPreferenceError /\
     exists student row sname,
       rows !! student = Some row /\ row !! 0%nat = Some sname /\
       ~ sum_test py_int topics row /\
       (forall j row', (j < student)%nat -> rows !! j = Some row' ->
                       sum_test py_int topics row') /\
       e = ValueError (NotSequence sname)) /\
  (is_ok (parse_csv py_int 3 (header :: rows)) = true <->
   Forall (fun row =>
             let values := specified_values py_int (preference_cells topics row) in
             Permutation values (one_to (length values))) rows).
Proof.
  apply (sequence_check py_int 3 ["X"; "A"; "B"] [["s1"; "1"; "3"]]).
  solve_readable.
Defined.

Lemma invalid_preference_rejected_witness :
  parse_csv py_int 3 [["X"; "A"; "B"]; ["s1"; "1"; "1"]] =
  Err (ValueError (NotUnique 1 "s1" "B")).
Proof.
  destruct (invalid_preference_rejected py_int 3 ["X"; "A"; "B"] [["s1"; "1"; "1"]])
    as [H _].
  assert (exists topic' c', (topic' < 1)%nat /\
            ["s1"; "1"; "1"] !! (topic' + 1)%nat = Some c' /\
            c' <> "" /\ py_int c' = Some 1) as Hearlier.
  { exists 0%nat, "1". split_and!; [lia | reflexivity | discriminate | reflexivity]. }
  assert ((1 < length (drop 1 ["X"; "A"; "B"]))%nat) as Htopic by (simpl; lia).
  assert ("1" <> "") as Hne by discriminate.
  destruct (H 0%nat 1%nat ["s1"; "1"; "1"] "1" 1 eq_refl Htopic eq_refl Hne eq_refl
              (or_intror Hearlier)) as [_ Hreached].
  apply Hreached; [|reflexivity|reflexivity].
  split_and!.
  - repeat constructor; discriminate.
  - constructor.
  - simpl. lia.
  - exists ["s1"; "1"; "1"]. split_and!; [reflexivity | simpl; lia | solve_cells].
Defined.

(** The cell "0" is less than one, but the loader fails on the cell
    before it, with the error of [int]; and on the empty row, with
    [IndexError], before it reads any cell. *)
Lemma earlier_error_reported :
  py_int "0" = Some 0 /\
  parse_csv py_int 3 [["X"; "A"; "B"]; ["s1"; "x"; "0"]] =
  Err (ValueError (InvalidLiteral "x")) /\
  classify (ValueError (InvalidLiteral "x")) = ParseError /\
  parse_csv py_int 3 [["X"; "A"]; ["s1"; "0"]; []] = Err IndexError /\
  classify IndexError = MalformedTableError.
Proof. repeat split. Qed.

Lemma validation_by_value_witness :
  is_ok (parse_csv py_int 3 [["X"; "A"; "B"; "C"]; ["s1"; "1"; "2"; ""]]) =
  is_ok (parse_csv py_int 3 [["X"; "A"; "B"; "C"]; ["s1"; ""; "2"; "1"]]).
Proof.
  apply (validation_by_value py_int 3 ["X"; "A"; "B"; "C"]
           [["s1"; "1"; "2"; ""]] [["s1"; ""; "2"; "1"]]).
  constructor; [|constructor]. split; [reflexivity|].
  apply (Permutation_cons_app [""; "2"] []). apply perm_swap.
Defined.

(** A row longer than the header is accepted. *)
Lemma longer_row_accepted :
  parse_csv py_int 3 [["X"; "A"]; ["s1"; "1"; "junk"]] =
  Ok (["s1"], ["A"], [(0%nat, 0%nat, 1)]).
Proof. reflexivity. Qed.

Lemma malformed_input_witness :
  parse_csv py_int 3 [["X"; "A"; "B"]; ["s1"; "1"]] = Err IndexError.
Proof.
  destruct (malformed_input brute_force_assignment 3 py_int
              ["X"; "A"; "B"] [["s1"; "1"]]) as (_ & _ & _ & H & _).
  apply (H 0%nat 1%nat ["s1"; "1"]); [reflexivity | reflexivity |].
  split_and!.
  - repeat constructor; discriminate.
  - constructor.
  - simpl. lia.
  - exists ["s1"; "1"]. split_and!; [reflexivity | simpl; lia | solve_cells].
Defined.


(** Two students and one topic: the run ends normally, one student
    gets the topic, the other gets no line. *)
Lemma partial_assignment_printed :
  main brute_force_assignment 3 py_int two_students_one_topic =
  ([TotalCost 1; AverageCost (Finite (1 # 2)); SolutionHeader; Gets "s1" "A"], Ok tt).
Proof. vm_compute. reflexivity. Qed.

Ltac solve_exact :=
  unfold exact_costs;
  repeat (apply List.Forall_cons;
          [unfold float64_exact; simpl; first [lia | split; lia]|]);
  apply List.Forall_nil.

Lemma topic_count_not_checked_witness :
  exists cost_matrix,
    build_cost_matrix ["s1"; "s2"] ["A"] [(0%nat, 0%nat, 1); (1%nat, 0%nat, 4)] = Ok cost_matrix /\
    (forall e,
       brute_force_assignment cost_matrix = Err e ->
       main brute_force_assignment 3 py_int two_students_one_topic = ([], Err e)) /\
    (forall row_indices col_indices,
       brute_force_assignment cost_matrix = Ok (row_indices, col_indices) ->
       length row_indices = length col_indices ->
       Forall (fun r => (r < 2)%nat) row_indices ->
       Forall (fun c => (c < 1)%nat) col_indices ->
       exact_costs (length row_indices) [(0%nat, 0%nat, 1); (1%nat, 0%nat, 4)] ->
       exists cells lines,
         main brute_force_assignment 3 py_int two_students_one_topic =
         (statistics 3 ["s1"; "s2"] cells ++ lines, Ok tt) /\
         assignment_lines ["s1"; "s2"] ["A"] (zip row_indices col_indices) = Ok lines /\
         length lines = length row_indices /\
         (List.NoDup col_indices -> (length lines <= 1)%nat)).
Proof.
  apply (topic_count_not_checked brute_force_assignment 3 py_int
           two_students_one_topic ["s1"; "s2"] ["A"] [(0%nat, 0%nat, 1); (1%nat, 0%nat, 4)]).
  - reflexivity.
  - solve_exact.
  - unfold float64_exact. simpl. lia.
Defined.

Lemma report_of_solved_instance_witness :
  exists lines,
    Forall2 (fun rc ln =>
               exists sname tname,
                 example_students !! rc.1 = Some sname /\
                 example_topics !! rc.2 = Some tname /\
                 ln = Gets sname tname)
            [(0, 0); (1, 1); (2, 2)]%nat lines /\
    (exceeds (Finite 1) 3 ->
     [TotalCost 3; AverageCost (Finite 1); SolutionHeader;
      Gets "s1" "A"; Gets "s2" "B"; Gets "s3" "C"] =
     [TotalCost 3; AverageCost (Finite 1); Warning (Finite 1) 3; SolutionHeader] ++ lines) /\
    (~ exceeds (Finite 1) 3 ->
     [TotalCost 3; AverageCost (Finite 1); SolutionHeader;
      Gets "s1" "A"; Gets "s2" "B"; Gets "s3" "C"] =
     [TotalCost 3; AverageCost (Finite 1); SolutionHeader] ++ lines).
Proof.
  apply (report_of_solved_instance brute_force_assignment 3
           example_students example_topics example_preferences
           [[1; 2; 3]; [4; 1; 4]; [2; 5; 1]] [0; 1; 2]%nat [0; 1; 2]%nat).
  - reflexivity.
  - reflexivity.
  - reflexivity.
  - solve_exact.
  - unfold float64_exact. simpl. lia.
  - vm_compute. reflexivity.
Defined.

(** * What an exception of the loader tells *)

Section Causes.

Variable int : string -> option Z.
Variable penalize_below_n_preferences : Z.

Lemma row_loop_Err sname topics row (k : nat) :
  forall j u sp e,
  (j + k <= length topics)%nat ->
  for_each (seq j k) (row_cell int sname topics row) (u, sp) = Err e ->
  (e = IndexError /\ (length row < j + 1 + k)%nat) \/
  exists topic c tname,
    (j <= topic < j + k)%nat /\ row !! (topic + 1)%nat = Some c /\ c <> "" /\
    topics !! topic = Some tname /\
    ((int c = None /\ e = ValueError (InvalidLiteral c)) \/
     exists p, int c = Some p /\
       ((p < 1 /\ e = ValueError (LessThanOne p sname tname)) \/
        (1 <= p /\ e = ValueError (NotUnique p sname tname) /\
         (In p (map snd sp) \/
          exists topic' c', (j <= topic' < topic)%nat /\
                            row !! (topic' + 1)%nat = Some c' /\ c' <> "" /\
                            int c' = Some p)))).
Proof.
  induction k as [|k IH]; intros j u sp e Hk H; [discriminate|].
  cbn [seq for_each] in H. unfold row_cell at 1 in H.
  destruct (row !! (j + 1)%nat) as [c|] eqn:Hc.
  2:{ unfold index in H. rewrite Hc in H. injection H as <-.
      left. split; [reflexivity|]. apply lookup_ge_None in Hc. lia. }
  rewrite (index_lookup _ _ _ Hc) in H. cbn [bind] in H.
  destruct (lookup_lt_is_Some_2 topics j) as [tname Htname]; [lia|].
  assert (forall u' sp',
            for_each (seq (S j) k) (row_cell int sname topics row) (u', sp') = Err e ->
            (forall p, In p (map snd sp') ->
                       In p (map snd sp) \/ (c <> "" /\ int c = Some p)) ->
            (e = IndexError /\ (length row < j + 1 + S k)%nat) \/
            exists topic c0 tname0,
              (j <= topic < j + S k)%nat /\ row !! (topic + 1)%nat = Some c0 /\
              c0 <> "" /\ topics !! topic = Some tname0 /\
              ((int c0 = None /\ e = ValueError (InvalidLiteral c0)) \/
               exists p, int c0 = Some p /\
                 ((p < 1 /\ e = ValueError (LessThanOne p sname tname0)) \/
                  (1 <= p /\ e = ValueError (NotUnique p sname tname0) /\
                   (In p (map snd sp) \/
                    exists topic' c', (j <= topic' < topic)%nat /\
                                      row !! (topic' + 1)%nat = Some c' /\ c' <> "" /\
                                      int c' = Some p))))) as Hrest.
  { intros u' sp' Hrun Hsp'.
    destruct (IH (S j) u' sp' e ltac:(lia) Hrun)
      as [[-> Hlen] | (topic & c0 & tname0 & Hrange & Hc0 & Hne0 & Ht0 & Hcause)].
    - left. split; [reflexivity | lia].
    - right. exists topic, c0, tname0.
      split; [lia|]. split; [assumption|]. split; [assumption|]. split; [assumption|].
      destruct Hcause as [Hlit | (p & Hp & [Hless | (Hp1 & He & Hdup)])]; [auto|..].
      + right. exists p. auto.
      + right. exists p. split; [assumption|]. right.
        split; [assumption|]. split; [assumption|].
        destruct Hdup as [Hin | (topic' & c' & Hr' & Hc' & Hne' & Hp')].
        * destruct (Hsp' p Hin) as [|[Hne Hpc]]; [auto|].
          right. exists j, c. split; [lia|]. auto.
        * right. exists topic', c'. split; [lia|]. auto. }
  unfold cell_step in H. destruct (String.eqb c "") eqn:Hce.
  - cbn [bind] in H. apply (Hrest _ _ H). auto.
  - apply String.eqb_neq in Hce. unfold int_of in H.
    destruct (int c) as [p|] eqn:Hp.
    2:{ injection H as <-. right. exists j, c, tname.
        split; [lia|]. split; [assumption|]. split; [assumption|].
        split; [assumption|]. left. auto. }
    cbn [bind] in H. rewrite (index_lookup _ _ _ Htname) in H. cbn [bind] in H.
    destruct (p <? 1) eqn:Hlt.
    { injection H as <-. apply Z.ltb_lt in Hlt.
      right. exists j, c, tname. split; [lia|].
      split; [assumption|]. split; [assumption|]. split; [assumption|].
      right. exists p. auto. }
    apply Z.ltb_ge in Hlt.
    destruct (existsb (Z.eqb p) (map snd sp)) eqn:Hdup.
    { injection H as <-. apply existsb_eqb_In in Hdup.
      right. exists j, c, tname. split; [lia|].
      split; [assumption|]. split; [assumption|]. split; [assumption|].
      right. exists p. split; [assumption|]. right. auto. }
    cbn [bind] in H. apply (Hrest _ _ H).
    intros q Hq. rewrite map_app in Hq. apply in_app_or in Hq as [Hq | [<- | []]]; auto.
Qed.

Lemma parse_csv_Err_cases fields e :
  parse_csv int penalize_below_n_preferences fields = Err e ->
  (fields = [] /\ e = IndexError) \/
  exists header rows,
    fields = header :: rows /\
    ((e = IndexError /\
      exists row, In row rows /\ (length row < length (drop 1 header) + 1)%nat) \/
     (exists student row sname topic c tname,
        rows !! student = Some row /\ row !! 0%nat = Some sname /\
        row !! (topic + 1)%nat = Some c /\ c <> "" /\
        drop 1 header !! topic = Some tname /\
        ((int c = None /\ e = ValueError (InvalidLiteral c)) \/
         exists p, int c = Some p /\
           ((p < 1 /\ e = ValueError (LessThanOne p sname tname)) \/
            (1 <= p /\ e = ValueError (NotUnique p sname tname) /\
             exists topic' c', (topic' < topic)%nat /\
                               row !! (topic' + 1)%nat = Some c' /\ c' <> "" /\
                               int c' = Some p)))) \/
     (Forall (row_readable int (drop 1 header)) rows /\
      exists student row sname,
        rows !! student = Some row /\ row !! 0%nat = Some sname /\
        ~ sum_test int (drop 1 header) row /\
        e = ValueError (NotSequence sname))).
Proof.
  rewrite parse_csv_rows_eq. unfold parse_csv_rows. intros H.
  destruct fields as [|header rows]; [left; injection H as <-; auto|].
  right. exists header, rows. split; [reflexivity|].
  change (index (header :: rows) 0) with (Ok (A:=list string) header) in H.
  change (drop 1 (header :: rows)) with rows in H. cbn [bind] in H.
  destruct (mapM (fun row : list string => index row 0%nat) rows)
    as [students|e'] eqn:Hst; cbn [bind] in H.
  2:{ injection H as ->. apply mapM_Err in Hst as (i & row & Hrow & Hidx & _).
      unfold index in Hidx. destruct (row !! 0%nat) eqn:Hhd; [discriminate|].
      injection Hidx as <-. apply lookup_ge_None in Hhd.
      left. split; [reflexivity|]. exists row. split; [|lia].
      apply list_elem_of_In, list_elem_of_lookup. eauto. }
  apply students_Ok in Hst.
  destruct (mapM (read_row int (drop 1 header)) (zip students rows))
    as [rs|e'] eqn:Hrs; cbn [bind] in H.
  2:{ injection H as ->. apply mapM_Err in Hrs as (i & [sname row] & Hz & Hread & _).
      apply lookup_zip_with_Some in Hz as (? & ? & [= <- <-] & Hname & Hrow).
      destruct (Forall2_lookup_l _ _ _ _ _ Hst Hrow) as (sname' & Hs & Hhd).
      assert (sname' = sname) as -> by congruence.
      unfold read_row, range in Hread. simpl fst in Hread. simpl snd in Hread.
      apply row_loop_Err in Hread; [|lia].
      destruct Hread as [[-> Hlen] | (topic & c & tname & Hrange & Hc & Hne & Ht & Hcause)].
      - left. split; [reflexivity|]. exists row. split; [|lia].
        apply list_elem_of_In, list_elem_of_lookup. eauto.
      - right. left. exists i, row, sname, topic, c, tname.
        split; [assumption|]. split; [assumption|]. split; [assumption|].
        split; [assumption|]. split; [assumption|].
        destruct Hcause as [Hlit | (p & Hp & [Hless | (Hp1 & He & [[] | Hdup])])].
        + left. assumption.
        + right. exists p. auto.
        + right. exists p. split; [assumption|]. right.
          split; [assumption|]. split; [assumption|].
          destruct Hdup as (topic' & c' & Hr' & Hrest). exists topic', c'.
          split; [lia | assumption]. }
  destruct (rows_read_Ok int _ _ _ _ Hst Hrs) as [Hread ->].
  destruct (mapM check_row _) as [?|e'] eqn:Hchk; cbn [bind] in H; [discriminate|].
  injection H as ->. right. right. split; [assumption|].
  apply mapM_Err in Hchk as (i & [sname r] & Hz & Hcheck & _).
  apply lookup_zip_with_Some in Hz as (? & ? & [= <- <-] & Hname & Hr).
  rewrite list_lookup_fmap in Hr.
  destruct (rows !! i) as [row|] eqn:Hrow; [|discriminate].
  injection Hr as <-. rewrite check_row_result in Hcheck.
  destruct (decide _) as [|Hsum]; [discriminate|]. injection Hcheck as <-.
  exists i, row, sname. split; [assumption|].
  destruct (Forall2_lookup_l _ _ _ _ _ Hst Hrow) as (sname' & Hs & Hhd).
  assert (sname' = sname) as -> by congruence. auto.
Qed.

(** X1.  Once the rows of the file are read, the loader raises
    [IndexError] or one of its four [ValueError]s, and never the
    [ValueError] of [max]: [max] is never called on an empty list. *)
Theorem parse_csv_raises_only fields e :
  parse_csv int penalize_below_n_preferences fields = Err e ->
  e = IndexError \/ exists v, e = ValueError v /\ v <> MaxOfEmpty.
Proof.
  intros H. apply parse_csv_Err_cases in H
    as [[_ ->] | (header & rows & _ & [[-> _] | [Hcell | (_ & Hseq)]])]; auto.
  - destruct Hcell as (? & ? & ? & ? & ? & ? & _ & _ & _ & _ & _ &
                       [[_ ->] | (p & _ & [[_ ->] | (_ & -> & _)])]);
      right; eexists; split; try reflexivity; discriminate.
  - destruct Hseq as (? & ? & ? & _ & _ & _ & ->).
    right. eexists. split; [reflexivity | discriminate].
Qed.

(** X2.  [IndexError] means the file is empty or a data row is shorter than
    the header (an empty row included). *)
Theorem index_error_cause fields :
  parse_csv int penalize_below_n_preferences fields = Err IndexError ->
  fields = [] \/
  exists header rows row,
    fields = header :: rows /\ In row rows /\
    (length row < length (drop 1 header) + 1)%nat.
Proof.
  intros H. apply parse_csv_Err_cases in H
    as [[-> _] | (header & rows & -> & [[_ (row & Hin & Hlen)] | [Hcell | (_ & Hseq)]])].
  - left. reflexivity.
  - right. exists header, rows, row. auto.
  - destruct Hcell as (? & ? & ? & ? & ? & ? & _ & _ & _ & _ & _ &
                       [[_ E] | (p & _ & [[_ E] | (_ & E & _)])]); discriminate.
  - destruct Hseq as (? & ? & ? & _ & _ & _ & E). discriminate.
Qed.

(** X3.  The [ValueError] of [int] carries the text of a non-empty cell
    under a topic column that is not an integer. *)
Theorem invalid_literal_cause fields s :
  parse_csv int penalize_below_n_preferences fields = Err (ValueError (InvalidLiteral s)) ->
  exists header rows student row topic,
    fields = header :: rows /\ rows !! student = Some row /\
    (topic < length (drop 1 header))%nat /\
    row !! (topic + 1)%nat = Some s /\ s <> "" /\ int s = None.
Proof.
  intros H. apply parse_csv_Err_cases in H
    as [[_ E] | (header & rows & -> & [[E _] | [Hcell | (_ & Hseq)]])];
    try discriminate.
  - destruct Hcell as (student & row & sname & topic & c & tname & Hrow & _ & Hc & Hne &
                       Ht & [[Hint E] | (p & _ & [[_ E] | (_ & E & _)])]);
      try discriminate.
    injection E as ->. exists header, rows, student, row, topic.
    split_and!; auto. eapply lookup_lt_Some; eauto.
  - destruct Hseq as (? & ? & ? & _ & _ & _ & E). discriminate.
Qed.

(** X4.  The "less than one" error names a cell that is an integer below 1,
    with the labels of its row and column. *)
Theorem less_than_one_cause fields p sname tname :
  parse_csv int penalize_below_n_preferences fields =
  Err (ValueError (LessThanOne p sname tname)) ->
  p < 1 /\
  exists header rows student row topic c,
    fields = header :: rows /\ rows !! student = Some row /\
    row !! 0%nat = Some sname /\ drop 1 header !! topic = Some tname /\
    row !! (topic + 1)%nat = Some c /\ c <> "" /\ int c = Some p.
Proof.
  intros H. apply parse_csv_Err_cases in H
    as [[_ E] | (header & rows & -> & [[E _] | [Hcell | (_ & Hseq)]])];
    try discriminate.
  - destruct Hcell as (student & row & sname' & topic & c & tname' & Hrow & Hhd & Hc & Hne &
                       Ht & [[_ E] | (q & Hq & [[Hlt E] | (_ & E & _)])]);
      try discriminate.
    injection E as -> -> ->. split; [assumption|].
    exists header, rows, student, row, topic, c. split_and!; auto.
  - destruct Hseq as (? & ? & ? & _ & _ & _ & E). discriminate.
Qed.

(** X5.  The "not unique" error names a cell whose value, at least 1,
    stands in an earlier cell of the same row. *)
Theorem not_unique_cause fields p sname tname :
  parse_csv int penalize_below_n_preferences fields =
  Err (ValueError (NotUnique p sname tname)) ->
  1 <= p /\
  exists header rows student row topic c topic' c',
    fields = header :: rows /\ rows !! student = Some row /\
    row !! 0%nat = Some sname /\ drop 1 header !! topic = Some tname /\
    row !! (topic + 1)%nat = Some c /\ c <> "" /\ int c = Some p /\
    (topic' < topic)%nat /\
    row !! (topic' + 1)%nat = Some c' /\ c' <> "" /\ int c' = Some p.
Proof.
  intros H. apply parse_csv_Err_cases in H
    as [[_ E] | (header & rows & -> & [[E _] | [Hcell | (_ & Hseq)]])];
    try discriminate.
  - destruct Hcell as (student & row & sname' & topic & c & tname' & Hrow & Hhd & Hc & Hne &
                       Ht & [[_ E] | (q & Hq & [[_ E] | (Hq1 & E & Hdup)])]);
      try discriminate.
    injection E as -> -> ->. split; [assumption|].
    destruct Hdup as (topic' & c' & Hlt & Hc' & Hne' & Hp').
    exists header, rows, student, row, topic, c, topic', c'. split_and!; auto.
  - destruct Hseq as (? & ? & ? & _ & _ & _ & E). discriminate.
Qed.

(** X6.  The "not a sequence" error is raised only after every cell of
    every student has been read without error, and names a student
    whose specified values fail the sum test. *)
Theorem not_sequence_cause fields sname :
  parse_csv int penalize_below_n_preferences fields =
  Err (ValueError (NotSequence sname)) ->
  exists header rows student row,
    fields = header :: rows /\
    Forall (row_readable int (drop 1 header)) rows /\
    rows !! student = Some row /\ row !! 0%nat = Some sname /\
    ~ sum_test int (drop 1 header) row.
Proof.
  intros H. apply parse_csv_Err_cases in H
    as [[_ E] | (header & rows & -> & [[E _] | [Hcell | (Hread & Hseq)]])];
    try discriminate.
  - destruct Hcell as (? & ? & ? & ? & ? & ? & _ & _ & _ & _ & _ &
                       [[_ E] | (p & _ & [[_ E] | (_ & E & _)])]); discriminate.
  - destruct Hseq as (student & row & sname' & Hrow & Hhd & Hsum & E).
    injection E as ->. exists header, rows, student, row. auto.
Qed.

End Causes.

(** * More on what the loader returns *)

Section LoaderValues.

Variable int : string -> option Z.
Variable penalize_below_n_preferences : Z.


(** X8.  For an accepted table, the cost of a ranked topic is the rank
    written in the cell. *)
Theorem specified_cost_kept fields students topics preferences student row topic str :
  parse_csv int penalize_below_n_preferences fields = Ok (students, topics, preferences) ->
  drop 1 fields !! student = Some row ->
  preference_cells topics row !! topic = Some str -> str <> "" ->
  forall c, In (student, topic, c) preferences <-> int str = Some c.
Proof.
  intros H Hrow Hstr Hne c. apply parse_csv_Ok_rows in H as (_ & _ & ->).
  rewrite expected_preferences_In. split.
  - intros (row' & Hrow' & [(s & Hs & _ & Hp) | [Hs _]]);
      assert (row' = row) as -> by congruence; congruence.
  - intros Hp. exists row. split; [assumption|]. left. eauto.
Qed.

Lemma specified_values_count (cells : list string) :
  all_integers int cells ->
  length (specified_values int cells) =
  length (filter (fun c => negb (String.eqb c "")) cells).
Proof.
  induction 1 as [|c cells Hc _ IH]; [reflexivity|].
  rewrite specified_values_cons, length_app, IH.
  destruct (String.eqb c "") eqn:E.
  - rewrite filter_cons_False by (rewrite E; auto). reflexivity.
  - rewrite filter_cons_True by (rewrite E; exact I).
    destruct Hc as [-> | [p Hp]]; [discriminate|]. rewrite Hp. reflexivity.
Qed.

Lemma one_to_greatest (values : list Z) (mx : Z) :
  Permutation values (one_to (length values)) ->
  In mx values -> Forall (fun v => v <= mx) values ->
  mx = Z.of_nat (length values).
Proof.
  intros Hperm Hin Hmax.
  pose proof (proj1 (one_to_In _ _) (Permutation_in _ Hperm Hin)) as Hrange.
  assert (In (Z.of_nat (length values)) values) as Hk.
  { apply (Permutation_in _ (Permutation_sym Hperm)), one_to_In. lia. }
  rewrite List.Forall_forall in Hmax. specialize (Hmax _ Hk). lia.
Qed.

(** X9.  For an accepted table, the cost of a topic a student left empty is
    the number of topics the student ranked plus the threshold, or
    threshold + 1 when the student ranked none: ranking nothing costs
    the same as ranking one topic. *)
Theorem default_cost_counts_ranked
    fields students topics preferences student row topic :
  parse_csv int penalize_below_n_preferences fields = Ok (students, topics, preferences) ->
  drop 1 fields !! student = Some row ->
  preference_cells topics row !! topic = Some "" ->
  let ranked := length (filter (fun c => negb (String.eqb c ""))
                               (preference_cells topics row)) in
  forall c, In (student, topic, c) preferences <->
            c = Z.max 1 (Z.of_nat ranked) + penalize_below_n_preferences.
Proof.
  intros H Hrow Hcell ranked c.
  apply parse_csv_Ok_rows in H as (_ & Hacc & ->).
  pose proof (accepted_row_lookup _ _ _ _ _ Hacc Hrow) as (_ & Hint & Hperm).
  assert (default_cost penalize_below_n_preferences
            (specified_values int (preference_cells topics row)) =
          Z.max 1 (Z.of_nat ranked) + penalize_below_n_preferences) as Hdefault.
  { unfold ranked. rewrite <- (specified_values_count _ Hint).
    destruct (specified_values int (preference_cells topics row)) as [|x l] eqn:E.
    - simpl. lia.
    - destruct (default_cost_nonempty penalize_below_n_preferences (x :: l))
        as (mx & Hin & Hmax & ->); [discriminate|].
      rewrite (one_to_greatest _ _ Hperm Hin Hmax). simpl length. lia. }
  rewrite expected_preferences_In, <- Hdefault. split.
  - intros (row' & Hrow' & [(s & Hs & Hne & _) | [_ ->]]);
      assert (row' = row) as -> by congruence; [congruence | reflexivity].
  - intros ->. exists row. auto.
Qed.

Lemma preference_cells_labels topics topics' (row row' : list string) :
  length topics = length topics' -> drop 1 row = drop 1 row' ->
  preference_cells topics row = preference_cells topics' row'.
Proof. intros Hlen Hrow. unfold preference_cells. rewrite Hlen, Hrow. reflexivity. Qed.

(** X10.  Labels play no role: a table with other topic labels (as many) and
    other student labels is accepted when the first is, with the same
    preference list; labels need not differ from one another. *)
Theorem labels_play_no_role header header' rows rows' students topics preferences :
  length (drop 1 header) = length (drop 1 header') ->
  Forall2 (fun row row' => length row = length row' /\ drop 1 row = drop 1 row')
          rows rows' ->
  parse_csv int penalize_below_n_preferences (header :: rows) =
  Ok (students, topics, preferences) ->
  exists students',
    parse_csv int penalize_below_n_preferences (header' :: rows') =
    Ok (students', drop 1 header', preferences).
Proof.
  intros Hlen Hrows H.
  apply parse_csv_Ok_iff in H as (h & r & [= <- <-] & -> & _ & Hacc & ->).
  assert (Forall (row_accepted int (drop 1 header')) rows' /\
          map (fun row => row_result int (preference_cells (drop 1 header') row)) rows' =
          map (fun row => row_result int (preference_cells (drop 1 header) row)) rows)
    as [Hacc' Hres].
  { induction Hrows as [|row row' rows rows' [Hl Hd] _ IH]; [split; constructor|].
    inversion Hacc as [|? ? (Hlr & Hint & Hperm) Hacc0]; subst.
    destruct (IH Hacc0) as [IH1 IH2].
    pose proof (preference_cells_labels _ _ _ _ Hlen Hd) as Hcells.
    split.
    - constructor; [|assumption]. unfold row_accepted.
      rewrite <- Hcells. split_and!; auto. lia.
    - simpl. rewrite IH2, Hcells. reflexivity. }
  destruct (students_exist rows') as [students' Hst'].
  { eapply List.Forall_impl; [|exact Hacc']. apply accepted_not_empty. }
  exists students'. apply parse_csv_Ok_iff. exists header', rows'.
  split_and!; auto. unfold expected_preferences. rewrite Hres. reflexivity.
Qed.

End LoaderValues.

Section Threshold.

Variable int : string -> option Z.

(** X11.  The threshold plays no role in validation: the loader fails for
    one threshold exactly when it fails for another, with the same
    exception, and returns the same students and topics. *)
Theorem threshold_not_in_validation (threshold threshold' : Z) fields :
  (forall e, parse_csv int threshold fields = Err e <->
             parse_csv int threshold' fields = Err e) /\
  (forall students topics preferences,
     parse_csv int threshold fields = Ok (students, topics, preferences) ->
     exists preferences',
       parse_csv int threshold' fields = Ok (students, topics, preferences') /\
       map fst preferences' = map fst preferences).
Proof.
  rewrite !parse_csv_rows_eq. unfold parse_csv_rows.
  destruct (index fields 0) as [header|e0]; cbn [bind]; [|split; [tauto | discriminate]].
  destruct (mapM (fun row : list string => index row 0%nat) (drop 1 fields))
    as [students|e0]; cbn [bind]; [|split; [tauto | discriminate]].
  destruct (mapM (read_row int (drop 1 header)) (zip students (drop 1 fields)))
    as [rs|e0]; cbn [bind]; [|split; [tauto | discriminate]].
  destruct (mapM check_row (zip students rs)) as [?|e0]; cbn [bind];
    [|split; [tauto | discriminate]].
  split; [intros e; split; discriminate|].
  intros ? ? ? [= <- <- <-]. eexists. split; [reflexivity|].
  generalize 0%nat. induction rs as [|[u sp] rs IH]; intros i; [reflexivity|].
  cbn [merge_rows]. rewrite !map_app, IH. f_equal.
  rewrite !merge_row_keys. reflexivity.
Qed.

End Threshold.

Section SmallTables.

Variable linear_sum_assignment : list (list Z) -> result (list nat * list nat).
Variable penalize_below_n_preferences : Z.
Variable int : string -> option Z.

Lemma merge_rows_empty {A} (rows : list A) (i : nat) :
  merge_rows penalize_below_n_preferences i
    (map (fun _ => ([], []) : list nat * list (nat * Z)) rows) = [].
Proof. revert i. induction rows as [|row rows IH]; intros i; simpl; auto. Qed.

(** X12.  A table without topics (a header of at most one cell): every
    non-empty row is a student, whatever else the row holds, and there
    is no preference. *)
Theorem table_without_topics header rows :
  (length header <= 1)%nat ->
  Forall (fun row => row <> []) rows ->
  exists students,
    Forall2 (fun row sname => row !! 0%nat = Some sname) rows students /\
    parse_csv int penalize_below_n_preferences (header :: rows) = Ok (students, [], []).
Proof.
  intros Hheader Hrows. destruct (students_exist rows Hrows) as [students Hst].
  exists students. split; [assumption|].
  assert (drop 1 header = []) as Htopics.
  { destruct header as [|? [|? ?]]; simpl in *; [reflexivity | reflexivity | lia]. }
  apply parse_csv_Ok_iff. exists header, rows. rewrite Htopics.
  split_and!; auto.
  - eapply List.Forall_impl; [|exact Hrows]. intros row Hne.
    unfold row_accepted, preference_cells. simpl.
    split_and!; [destruct row; [congruence | simpl; lia] | constructor | constructor].
  - unfold expected_preferences.
    change (map (fun row => row_result int (preference_cells [] row)) rows)
      with (map (fun _ : list string => ([], []) : list nat * list (nat * Z)) rows).
    symmetry. apply merge_rows_empty.
Qed.

(** X13.  A table with a header and no student: the loader returns empty
    lists; if the matching routine returns an empty matching, the
    program prints a total of 0 and the average nan of 0 / 0, no
    warning whatever the threshold, and no assignment, and ends
    normally. *)
Theorem table_without_students header :
  parse_csv int penalize_below_n_preferences [header] = Ok ([], drop 1 header, []) /\
  (linear_sum_assignment [] = Ok ([], []) ->
   main linear_sum_assignment penalize_below_n_preferences int [header] =
   ([TotalCost 0; AverageCost NaN; SolutionHeader], Ok tt)).
Proof.
  assert (parse_csv int penalize_below_n_preferences [header] =
          Ok ([], drop 1 header, [])) as Hload by reflexivity.
  split; [exact Hload|]. intros Hsolve.
  rewrite (main_Ok _ _ _ _ _ _ _ Hload).
  unfold solve_assignment_problem, build_cost_matrix.
  cbn [for_each length np_zeros replicate lift io_bind].
  rewrite Hsolve. reflexivity.
Qed.

End SmallTables.

(** * More on the cost matrix and the report *)

Section MatrixFacts.

(** X14.  For triples whose costs float64 holds exactly: the wrapper's
    matrix can be built exactly when every triple names a student and
    a topic in range; otherwise building it raises [IndexError]. *)
Theorem cost_matrix_bounds students topics preferences :
  Forall (fun p => float64_exact p.2) preferences ->
  (is_ok (build_cost_matrix students topics preferences) = true <->
   Forall (fun p => (p.1.1 < length students)%nat /\ (p.1.2 < length topics)%nat)
          preferences) /\
  (forall e, build_cost_matrix students topics preferences = Err e -> e = IndexError).
Proof.
  intros _.
  destruct (fill_matrix_any (length students) (length topics) preferences
              (np_zeros (length students) (length topics)) (np_zeros_shape _ _))
    as (He & Hok & _).
  split; assumption.
Qed.

(** X15.  For triples whose costs float64 holds exactly: in the matrix
    the wrapper builds, a cell holds the cost of the last triple for
    its student and topic, and 0 when the list has no triple for
    them. *)
Theorem cost_matrix_last_write students topics preferences cost_matrix student topic :
  Forall (fun p => float64_exact p.2) preferences ->
  build_cost_matrix students topics preferences = Ok cost_matrix ->
  (student < length students)%nat -> (topic < length topics)%nat ->
  get_cell cost_matrix (student, topic) = Ok (last_cost preferences student topic).
Proof.
  intros _ Hbuild Hs Ht.
  destruct (fill_matrix_any (length students) (length topics) preferences
              (np_zeros (length students) (length topics)) (np_zeros_shape _ _))
    as (_ & _ & Hcells).
  destruct (Hcells cost_matrix Hbuild) as [_ Hget].
  apply Hget, get_cell_zeros; assumption.
Qed.

Variable linear_sum_assignment : list (list Z) -> result (list nat * list nat).
Variable penalize_below_n_preferences : Z.

(** X16.  The report is never cut short: when the matching routine returns
    index arrays of equal lengths, a run of the wrapper that raises
    has printed nothing. *)
Theorem report_never_truncated students topics preferences out e :
  (forall cost_matrix row_indices col_indices,
     linear_sum_assignment cost_matrix = Ok (row_indices, col_indices) ->
     length row_indices = length col_indices) ->
  solve_assignment_problem linear_sum_assignment penalize_below_n_preferences
    students topics preferences = (out, Err e) ->
  out = [].
Proof.
  intros Hcontract H.
  destruct (build_cost_matrix students topics preferences) as [M|e0] eqn:Hbuild.
  2:{ unfold solve_assignment_problem in H. rewrite Hbuild in H.
      injection H as <- _. reflexivity. }
  destruct (linear_sum_assignment M) as [[rows cols]|e0] eqn:Hsolve.
  2:{ unfold solve_assignment_problem in H. rewrite Hbuild in H.
      cbn [lift io_bind] in H. rewrite Hsolve in H. injection H as <- _. reflexivity. }
  destruct (fancy_index M rows cols) as [cells|e0] eqn:Hcells.
  2:{ unfold solve_assignment_problem in H. rewrite Hbuild in H.
      cbn [lift io_bind] in H. rewrite Hsolve in H. cbn [io_bind] in H.
      rewrite Hcells in H. injection H as <- _. reflexivity. }
  pose proof (Hcontract _ _ _ Hsolve) as Hlen.
  pose proof (solve_run linear_sum_assignment penalize_below_n_preferences
                _ _ _ _ _ _ _ Hbuild Hsolve Hcells Hlen) as Hrun.
  destruct (assignment_lines_of_cells students topics M (zip rows cols) cells)
    as [lines Hlines].
  - apply build_cost_matrix_shape with (preferences := preferences). assumption.
  - unfold fancy_index in Hcells. rewrite (proj2 (Nat.eqb_eq _ _) Hlen) in Hcells.
    exact Hcells.
  - rewrite Hlines, H in Hrun. discriminate.
Qed.

End MatrixFacts.

Section Composition.

Variable linear_sum_assignment : list (list Z) -> result (list nat * list nat).
Variable penalize_below_n_preferences : Z.
Variable int : string -> option Z.

Lemma accepted_costs_at_least_one fields students topics preferences :
  0 <= penalize_below_n_preferences ->
  parse_csv int penalize_below_n_preferences fields = Ok (students, topics, preferences) ->
  Forall (fun p => 1 <= p.2) preferences.
Proof.
  intros Hpen H. apply parse_csv_Ok_rows in H as (_ & Hacc & ->).
  rewrite List.Forall_forall. intros [[student topic] c] Hin. simpl.
  apply expected_preferences_In in Hin as (row & Hrow & Hcase).
  pose proof (accepted_row_lookup _ _ _ _ _ Hacc Hrow) as (_ & _ & Hperm).
  apply Permutation_one_to in Hperm as [Hpos _].
  rewrite List.Forall_forall in Hpos.
  destruct Hcase as [(str & Hstr & Hne & Hp) | [_ ->]].
  - apply Hpos, specified_values_In. eauto.
  - destruct (specified_values int (preference_cells topics row)) as [|x l] eqn:E.
    + simpl. lia.
    + destruct (default_cost_nonempty penalize_below_n_preferences (x :: l))
        as (mx & Hmx & _ & ->); [discriminate|].
      specialize (Hpos mx Hmx). lia.
Qed.

Lemma py_sum_at_least_length (cells : list Z) :
  Forall (fun x => 1 <= x) cells -> Z.of_nat (length cells) <= py_sum cells.
Proof.
  induction 1 as [|x cells Hx _ IH]; [reflexivity|].
  rewrite py_sum_cons. simpl length. lia.
Qed.

(** X17.  The loader and the wrapper together: with a threshold that is not
    negative and a matching routine that returns index arrays of equal
    lengths, the total cost printed by a run that ends normally is at
    least the number of assignment lines printed. *)
Theorem total_cost_at_least_matched fields out :
  0 <= penalize_below_n_preferences ->
  (forall cost_matrix row_indices col_indices,
     linear_sum_assignment cost_matrix = Ok (row_indices, col_indices) ->
     length row_indices = length col_indices) ->
  main linear_sum_assignment penalize_below_n_preferences int fields = (out, Ok tt) ->
  exists total_cost,
    In (TotalCost total_cost) out /\
    Z.of_nat (length (filter is_gets out)) <= total_cost.
Proof.
  intros Hpen Hcontract H.
  destruct (parse_csv int penalize_below_n_preferences fields)
    as [[[students topics] preferences]|e] eqn:Hload.
  2:{ rewrite (main_Err linear_sum_assignment _ _ _ _ Hload) in H.
      injection H as _ Hres. discriminate Hres. }
  rewrite (main_Ok linear_sum_assignment _ _ _ _ _ _ Hload) in H.
  destruct (accepted_cost_matrix _ _ _ _ _ _ Hload) as (_ & M & Hbuild & Hshape & Hcell).
  pose proof (accepted_costs_at_least_one _ _ _ _ Hpen Hload) as Hpos.
  assert (exists rows cols cells,
            linear_sum_assignment M = Ok (rows, cols) /\
            fancy_index M rows cols = Ok cells) as (rows & cols & cells & Hsolve & Hcells).
  { unfold solve_assignment_problem in H. rewrite Hbuild in H. cbn [lift io_bind] in H.
    destruct (linear_sum_assignment M) as [[rows cols]|]; [|discriminate].
    cbn [io_bind] in H.
    destruct (fancy_index M rows cols) as [cells|] eqn:Hcells; [|discriminate].
    exists rows, cols, cells. split; [reflexivity | exact Hcells]. }
  pose proof (Hcontract _ _ _ Hsolve) as Hlen.
  pose proof (solve_run linear_sum_assignment penalize_below_n_preferences
                _ _ _ _ _ _ _ Hbuild Hsolve Hcells Hlen) as Hrun.
  destruct (assignment_lines students topics (zip rows cols)) as [lines|e] eqn:Hlines.
  2:{ rewrite H in Hrun. discriminate. }
  assert (out = statistics penalize_below_n_preferences students cells ++ lines)
    as Hout by congruence.
  destruct (assignment_lines_gets _ _ _ _ Hlines) as [Hll Hgets].
  destruct (gets_not_warning _ Hgets) as [_ Hfilter].
  exists (py_sum cells). split; [rewrite Hout; left; reflexivity|].
  rewrite Hout, filter_app, statistics_gets, Hfilter. simpl app. rewrite Hll.
  unfold fancy_index in Hcells. rewrite (proj2 (Nat.eqb_eq _ _) Hlen) in Hcells.
  rewrite <- (mapM_length _ _ _ Hcells). apply py_sum_at_least_length.
  apply mapM_Ok in Hcells. clear - Hcells Hcell Hpos.
  rewrite List.Forall_forall in Hpos.
  induction Hcells as [|[r c] x pairs cells Hx _ IH]; constructor; [|assumption].
  apply Hcell in Hx. apply (Hpos _ Hx).
Qed.

End Composition.

(** * Examples for the further properties *)

Lemma parse_csv_raises_only_witness :
  ValueError (InvalidLiteral "x") = IndexError \/
  exists v, ValueError (InvalidLiteral "x") = ValueError v /\ v <> MaxOfEmpty.
Proof.
  apply (parse_csv_raises_only py_int 3 [["X"; "A"]; ["s1"; "x"]]). reflexivity.
Defined.

Lemma index_error_cause_witness :
  [["X"; "A"; "B"]; ["s1"; "1"]] = [] \/
  exists header rows row,
    [["X"; "A"; "B"]; ["s1"; "1"]] = header :: rows /\ In row rows /\
    (length row < length (drop 1 header) + 1)%nat.
Proof.
  apply (index_error_cause py_int 3 [["X"; "A"; "B"]; ["s1"; "1"]]). reflexivity.
Defined.

Lemma invalid_literal_cause_witness :
  exists header rows student row topic,
    [["X"; "A"]; ["s1"; "x"]] = header :: rows /\ rows !! student = Some row /\
    (topic < length (drop 1 header))%nat /\
    row !! (topic + 1)%nat = Some "x" /\ "x" <> "" /\ py_int "x" = None.
Proof.
  apply (invalid_literal_cause py_int 3 [["X"; "A"]; ["s1"; "x"]] "x"). reflexivity.
Defined.

Lemma less_than_one_cause_witness :
  0 < 1 /\
  exists header rows student row topic c,
    [["X"; "A"]; ["s1"; "0"]] = header :: rows /\ rows !! student = Some row /\
    row !! 0%nat = Some "s1" /\ drop 1 header !! topic = Some "A" /\
    row !! (topic + 1)%nat = Some c /\ c <> "" /\ py_int c = Some 0.
Proof.
  apply (less_than_one_cause py_int 3 [["X"; "A"]; ["s1"; "0"]] 0 "s1" "A").
  reflexivity.
Defined.

Lemma not_unique_cause_witness :
  1 <= 1 /\
  exists header rows student row topic c topic' c',
    [["X"; "A"; "B"]; ["s1"; "1"; "1"]] = header :: rows /\
    rows !! student = Some row /\
    row !! 0%nat = Some "s1" /\ drop 1 header !! topic = Some "B" /\
    row !! (topic + 1)%nat = Some c /\ c <> "" /\ py_int c = Some 1 /\
    (topic' < topic)%nat /\
    row !! (topic' + 1)%nat = Some c' /\ c' <> "" /\ py_int c' = Some 1.
Proof.
  apply (not_unique_cause py_int 3 [["X"; "A"; "B"]; ["s1"; "1"; "1"]] 1 "s1" "B").
  reflexivity.
Defined.

(** The first student has a gap, the second a cell that is not an
    integer: the exception is that of the cell. *)
Example reading_comes_first :
  parse_csv py_int 3 [["X"; "A"; "B"]; ["s1"; "1"; "3"]; ["s2"; "x"; ""]] =
  Err (ValueError (InvalidLiteral "x")).
Proof. reflexivity. Qed.

Lemma not_sequence_cause_witness :
  exists header rows student row,
    [["X"; "A"; "B"]; ["s1"; "1"; "3"]] = header :: rows /\
    Forall (row_readable py_int (drop 1 header)) rows /\
    rows !! student = Some row /\ row !! 0%nat = Some "s1" /\
    ~ sum_test py_int (drop 1 header) row.
Proof.
  apply (not_sequence_cause py_int 3 [["X"; "A"; "B"]; ["s1"; "1"; "3"]] "s1").
  reflexivity.
Defined.


Lemma specified_cost_kept_witness :
  In (0%nat, 1%nat, 2) example_preferences <-> py_int "2" = Some 2.
Proof.
  apply (specified_cost_kept py_int 3 example_fields example_students example_topics
           example_preferences 0 ["s1"; "1"; "2"; "3"] 1 "2");
    [reflexivity | reflexivity | reflexivity | discriminate].
Defined.

Lemma default_cost_counts_ranked_witness :
  In (2%nat, 1%nat, 5) example_preferences <-> 5 = Z.max 1 (Z.of_nat 2) + 3.
Proof.
  apply (default_cost_counts_ranked py_int 3 example_fields example_students
           example_topics example_preferences 2 ["s3"; "2"; ""; "1"] 1
           eq_refl eq_refl eq_refl 5).
Defined.

Lemma labels_play_no_role_witness :
  exists students',
    parse_csv py_int 3
      [["Y"; "T"; "T"; "T"]; ["s"; "1"; "2"; "3"]; ["s"; ""; "1"; ""];
       ["s"; "2"; ""; "1"]] =
    Ok (students', drop 1 ["Y"; "T"; "T"; "T"], example_preferences).
Proof.
  apply (labels_play_no_role py_int 3 ["X"; "A"; "B"; "C"] ["Y"; "T"; "T"; "T"]
           [["s1"; "1"; "2"; "3"]; ["s2"; ""; "1"; ""]; ["s3"; "2"; ""; "1"]]
           [["s"; "1"; "2"; "3"]; ["s"; ""; "1"; ""]; ["s"; "2"; ""; "1"]]
           example_students example_topics example_preferences).
  - reflexivity.
  - repeat (constructor; [split; reflexivity|]). constructor.
  - reflexivity.
Defined.

Lemma threshold_not_in_validation_witness :
  exists preferences',
    parse_csv py_int 10 example_fields =
    Ok (example_students, example_topics, preferences') /\
    map fst preferences' = map fst example_preferences.
Proof.
  apply (proj2 (threshold_not_in_validation py_int 3 10 example_fields)).
  reflexivity.
Defined.

Lemma table_without_topics_witness :
  exists students,
    Forall2 (fun row sname => row !! 0%nat = Some sname)
            [["s1"; "junk"]; ["s2"]] students /\
    parse_csv py_int 3 [["X"]; ["s1"; "junk"]; ["s2"]] = Ok (students, [], []).
Proof.
  apply (table_without_topics 3 py_int ["X"] [["s1"; "junk"]; ["s2"]]).
  - simpl. lia.
  - repeat constructor; discriminate.
Defined.

Lemma table_without_students_witness :
  main brute_force_assignment 3 py_int [["X"; "A"; "B"]] =
  ([TotalCost 0; AverageCost NaN; SolutionHeader], Ok tt).
Proof.
  apply (proj2 (table_without_students brute_force_assignment 3 py_int ["X"; "A"; "B"])).
  reflexivity.
Defined.

Lemma cost_matrix_bounds_witness :
  Forall (fun p : nat * nat * Z => float64_exact p.2) [(1%nat, 0%nat, 4)] /\
  is_ok (build_cost_matrix ["s1"; "s2"] ["A"] [(1%nat, 0%nat, 4)]) = true.
Proof.
  assert (Forall (fun p : nat * nat * Z => float64_exact p.2) [(1%nat, 0%nat, 4)])
    as Hexact by solve_exact.
  split; [exact Hexact|].
  apply (proj2 (proj1 (cost_matrix_bounds ["s1"; "s2"] ["A"] [(1%nat, 0%nat, 4)] Hexact))).
  repeat constructor; simpl; lia.
Defined.

Lemma cost_matrix_last_write_witness :
  get_cell [[7; 0]] (0%nat, 0%nat) =
  Ok (last_cost [(0%nat, 0%nat, 5); (0%nat, 0%nat, 7)] 0 0).
Proof.
  apply (cost_matrix_last_write ["s1"] ["A"; "B"]
           [(0%nat, 0%nat, 5); (0%nat, 0%nat, 7)] [[7; 0]] 0 0);
    [solve_exact | reflexivity | simpl; lia | simpl; lia].
Defined.

Lemma brute_force_same_length cost_matrix row_indices col_indices :
  brute_force_assignment cost_matrix = Ok (row_indices, col_indices) ->
  length row_indices = length col_indices.
Proof.
  unfold brute_force_assignment.
  destruct (if (_ <=? _)%nat then _ else _) as [|first others];
    intros [= <- <-]; [reflexivity|].
  rewrite !length_map. reflexivity.
Qed.

Lemma report_never_truncated_witness :
  solve_assignment_problem brute_force_assignment 3 ["s1"] ["A"] [(5%nat, 0%nat, 1)] =
  ([], Err IndexError) /\ @nil line = [].
Proof.
  split; [reflexivity|].
  apply (report_never_truncated brute_force_assignment 3 ["s1"] ["A"]
           [(5%nat, 0%nat, 1)] [] IndexError brute_force_same_length).
  reflexivity.
Defined.

Lemma total_cost_at_least_matched_witness :
  exists total_cost,
    In (TotalCost total_cost)
       [TotalCost 3; AverageCost (Finite 1); SolutionHeader;
        Gets "s1" "A"; Gets "s2" "B"; Gets "s3" "C"] /\
    Z.of_nat (length (filter is_gets
       [TotalCost 3; AverageCost (Finite 1); SolutionHeader;
        Gets "s1" "A"; Gets "s2" "B"; Gets "s3" "C"])) <= total_cost.
Proof.
  apply (total_cost_at_least_matched brute_force_assignment 3 py_int example_fields).
  - lia.
  - exact brute_force_same_length.
  - vm_compute. reflexivity.
Defined.
